(** * The LLM-response recovery pipeline of the code-review backend

    A shallow embedding of [backend/app/services/review_service.py]
    ([ReviewService.parse_llm_response]), [backend/app/services/fix_service.py]
    ([FixService.generate_fix], [FixService.generate_fixes_for_findings]),
    [backend/app/services/ollama_service.py] ([OllamaService.generate_review])
    and the data model of [backend/app/models/review.py]; then of what
    surrounds them: [ReviewService.get_system_prompt] and
    [ReviewService.review_code], the fix endpoint of
    [backend/app/routes/review_routes.py], and the reading of a guidelines
    file and the grouping of the report in [backend/cli.py].

    Python strings are sequences of Unicode code points; a string is a
    [list N].  Python values coming out of [json.loads] are the inductive
    type [json].  Exceptions are explicit: fallible code returns a [res].
    Calls to [print] have no effect on any returned value and are left out,
    except where evaluating the printed expression can itself raise. *)

From Stdlib Require Import ZArith NArith List Bool Lia.
From Stdlib Require Import Strings.String Strings.Ascii Numbers.DecimalString.
From stdpp Require Import base option list gmap.

Import ListNotations.
Local Open Scope nat_scope.
Set Warnings "-register-all".

(** ** Python [str] *)

Abbreviation char := N (only parsing).
Abbreviation str := (list N) (only parsing).

(** [lit "abc"] is the Python literal ['abc'] (ASCII literals only). *)
Definition lit (s : string) : str :=
  List.map N_of_ascii (list_ascii_of_string s).

Arguments lit : simpl never.

(** In the examples an apostrophe stands for a quotation mark:
    [jlit "{'a': 1}"] is the text of the JSON object with the key [a]. *)
Definition jlit (s : string) : str :=
  List.map (fun c => if (c =? 39)%N then 34%N else c) (lit s).

(** [clit "{<a>: 1}"] is the same text written with the typographic
    quotation marks U+201C and U+201D. *)
Definition clit (s : string) : str :=
  List.map (fun c => if (c =? 60)%N then 8220%N
                     else if (c =? 62)%N then 8221%N else c) (lit s).

Module Str.

Definition eqb (a b : str) : bool := bool_decide (a = b).

(** [s.startswith(p)] *)
Fixpoint startswith (p s : str) : bool :=
  match p, s with
  | [], _ => true
  | _ :: _, [] => false
  | a :: p', b :: s' => N.eqb a b && startswith p' s'
  end.

(** Index of the first occurrence of [sub] in [s], counted from [i]. *)
Fixpoint find_at (sub s : str) (i : nat) : option nat :=
  if startswith sub s then Some i
  else match s with
       | [] => None
       | _ :: s' => find_at sub s' (S i)
       end.

(** Index of the last occurrence of [sub] in [s], counted from [i]. *)
Fixpoint rfind_at (sub s : str) (i : nat) : option nat :=
  match s with
  | [] => if startswith sub s then Some i else None
  | _ :: s' =>
      match rfind_at sub s' (S i) with
      | Some j => Some j
      | None => if startswith sub s then Some i else None
      end
  end.

(** [sub in s] *)
Definition contains (sub s : str) : bool :=
  match find_at sub s 0 with Some _ => true | None => false end.

(** Python's adjustment of a slice bound against a length. *)
Definition adjust_index (len i : Z) : Z :=
  if (i <? 0)%Z then Z.max 0 (len + i) else Z.min i len.

(** [s[a:b]], for strings and for lists. *)
Definition slice {A} (s : list A) (a b : Z) : list A :=
  let len := Z.of_nat (length s) in
  let a' := adjust_index len a in
  let b' := adjust_index len b in
  firstn (Z.to_nat (b' - a')) (skipn (Z.to_nat a') s).

(** [s[a:]] *)
Definition slice_from {A} (s : list A) (a : Z) : list A :=
  skipn (Z.to_nat (adjust_index (Z.of_nat (length s)) a)) s.

(** [s[:b]] *)
Definition slice_to {A} (s : list A) (b : Z) : list A :=
  firstn (Z.to_nat (adjust_index (Z.of_nat (length s)) b)) s.

(** [s.find(sub, start)]; [-1] when absent. *)
Definition find (s sub : str) (start : Z) : Z :=
  let len := Z.of_nat (length s) in
  let st := if (start <? 0)%Z then Z.max 0 (len + start) else start in
  if (len <? st)%Z then (-1)%Z
  else match find_at sub (skipn (Z.to_nat st) s) 0 with
       | Some i => (st + Z.of_nat i)%Z
       | None => (-1)%Z
       end.

(** [s.rfind(sub)]; [-1] when absent. *)
Definition rfind (s sub : str) : Z :=
  match rfind_at sub s 0 with
  | Some i => Z.of_nat i
  | None => (-1)%Z
  end.

(** [c.isspace()] for one code point: the Unicode white-space characters
    [str.strip()] removes. *)
Definition isspace (c : char) : bool :=
  ((9 <=? c) && (c <=? 13) || (28 <=? c) && (c <=? 32)
   || (c =? 133) || (c =? 160) || (c =? 5760)
   || (8192 <=? c) && (c <=? 8202)
   || (c =? 8232) || (c =? 8233) || (c =? 8239) || (c =? 8287)
   || (c =? 12288))%N.

Fixpoint lstrip (s : str) : str :=
  match s with
  | [] => []
  | c :: s' => if isspace c then lstrip s' else s
  end.

Definition rstrip (s : str) : str := rev (lstrip (rev s)).

(** [s.strip()] *)
Definition strip (s : str) : str := rstrip (lstrip s).

(** [s.replace(old, new)] for a one-character [old]; every use in the
    source has a one-character pattern. *)
Definition replace (old : char) (new : str) (s : str) : str :=
  flat_map (fun c => if N.eqb c old then new else [c]) s.

(** [s.split(sep)] for a non-empty [sep]: [skip] counts the characters of a
    matched separator still to be passed over, [cur] is the piece being
    collected, reversed. *)
Fixpoint split_aux (sep s : str) (skip : nat) (cur : str) : list str :=
  match s with
  | [] => [rev cur]
  | c :: s' =>
      match skip with
      | S k => split_aux sep s' k cur
      | O =>
          if startswith sep s
          then rev cur :: split_aux sep s' (length sep - 1) []
          else split_aux sep s' 0 (c :: cur)
      end
  end.

Definition split (s sep : str) : list str := split_aux sep s 0 [].

(** [s.split(sep, 1)] *)
Definition split1 (s sep : str) : list str :=
  match find_at sep s 0 with
  | Some i => [firstn i s; skipn (i + length sep) s]
  | None => [s]
  end.

(** [sep.join(parts)] *)
Fixpoint join (sep : str) (parts : list str) : str :=
  match parts with
  | [] => []
  | [p] => p
  | p :: ps => p ++ sep ++ join sep ps
  end.

(** [str(n)] for a natural number. *)
Definition of_nat (n : nat) : str :=
  lit (NilEmpty.string_of_uint (Nat.to_uint n)).

End Str.

(** ** Exceptions and fallible computations *)

(** The exception classes the modelled code can meet; each carries what
    [str(e)] needs.  All of them are subclasses of [Exception]. *)
Inductive exn : Type :=
| JSONDecodeError (msg : str) (doc : str) (pos : nat)
| AttributeError (msg : str)
| TypeError (msg : str)
| ValueError (msg : str)
| ValidationError (msg : str)
| GatewayError (msg : str).

Inductive res (A : Type) : Type :=
| Ret (a : A)
| Raise (e : exn).
Arguments Ret {A} a.
Arguments Raise {A} e.

#[global] Instance res_ret : MRet res := fun A a => Ret a.
#[global] Instance res_bind : MBind res := fun A B f m =>
  match m with
  | Ret a => f a
  | Raise e => Raise e
  end.

(** [try: body except Exception as e: handler(e)] *)
Definition try_except {A} (body : res A) (handler : exn -> res A) : res A :=
  match body with
  | Ret a => Ret a
  | Raise e => handler e
  end.

(** ** Python values produced by [json.loads] *)

(** A float is kept as the text of its literal; a [dict] is an association
    list in insertion order with distinct keys. *)
Inductive json : Type :=
| JNull
| JBool (b : bool)
| JInt (z : Z)
| JFloat (lexeme : str)
| JStr (s : str)
| JArr (items : list json)
| JObj (pairs : list (str * json)).

Abbreviation dict := (list (str * json)) (only parsing).

(** [d.get(k)], [None] of [option] standing for an absent key. *)
Fixpoint dict_get (d : dict) (k : str) : option json :=
  match d with
  | [] => None
  | (k', v) :: d' => if Str.eqb k' k then Some v else dict_get d' k
  end.

(** [d[k] = v]: an existing key keeps its place. *)
Fixpoint dict_set (d : dict) (k : str) (v : json) : dict :=
  match d with
  | [] => [(k, v)]
  | (k', v') :: d' =>
      if Str.eqb k' k then (k', v) :: d' else (k', v') :: dict_set d' k v
  end.

(** [k in d] *)
Definition dict_mem (d : dict) (k : str) : bool :=
  match dict_get d k with Some _ => true | None => false end.

(** ** [json.loads]

    The decoder of the Python standard library (the scanner of CPython's
    [_json] module, strict mode, no hooks): white space is space, tab, line
    feed and carriage return; [NaN], [Infinity] and [-Infinity] are accepted;
    a repeated key keeps its last value; an error is a [JSONDecodeError] with
    a message and the index it points at.  The interpreter's recursion limit
    on deeply nested documents is not modelled. *)
Module Json.

Abbreviation DQUOTE := 34%N (only parsing).
Abbreviation BACKSLASH := 92%N (only parsing).
Abbreviation LBRACE := 123%N (only parsing).
Abbreviation RBRACE := 125%N (only parsing).
Abbreviation LBRACKET := 91%N (only parsing).
Abbreviation RBRACKET := 93%N (only parsing).
Abbreviation COLON := 58%N (only parsing).
Abbreviation COMMA := 44%N (only parsing).
Abbreviation MINUS := 45%N (only parsing).
Abbreviation PLUS := 43%N (only parsing).
Abbreviation DOT := 46%N (only parsing).

(** Outcome of scanning at an index: a value with the text left and the
    index after it, [StopIteration(pos)], a decode error, or no fuel. *)
Inductive scan (A : Type) : Type :=
| Done (v : A) (rest : str) (pos : nat)
| Stop (pos : nat)
| Fail (msg : str) (pos : nat)
| Exhausted.
Arguments Done {A} v rest pos.
Arguments Stop {A} pos.
Arguments Fail {A} msg pos.
Arguments Exhausted {A}.

Definition is_ws (c : char) : bool :=
  ((c =? 32) || (c =? 9) || (c =? 10) || (c =? 13))%N.

Definition is_digit (c : char) : bool := ((48 <=? c) && (c <=? 57))%N.

Fixpoint skip_ws (s : str) (pos : nat) : str * nat :=
  match s with
  | c :: s' => if is_ws c then skip_ws s' (S pos) else (s, pos)
  | [] => (s, pos)
  end.

(** The longest run of digits at the head of [s], and what follows. *)
Fixpoint span_digits (s : str) : str * str :=
  match s with
  | c :: s' =>
      if is_digit c
      then let '(ds, r) := span_digits s' in (c :: ds, r)
      else ([], s)
  | [] => ([], [])
  end.

Definition hex_value (c : char) : option N :=
  if ((48 <=? c) && (c <=? 57))%N then Some (c - 48)%N
  else if ((97 <=? c) && (c <=? 102))%N then Some (c - 87)%N
  else if ((65 <=? c) && (c <=? 70))%N then Some (c - 55)%N
  else None.

(** The four hexadecimal digits of a [\uXXXX] escape. *)
Definition hex4 (s : str) : option N :=
  match s with
  | a :: b :: c :: d :: _ =>
      match hex_value a, hex_value b, hex_value c, hex_value d with
      | Some x, Some y, Some z, Some w =>
          Some (x * 4096 + y * 256 + z * 16 + w)%N
      | _, _, _, _ => None
      end
  | _ => None
  end.

Inductive escape : Type :=
| EscChar (c : char) (consumed : nat)
| EscError (msg : str) (pos : nat)
| EscUnterminated.

Definition simple_escape (c : char) : option char :=
  if (c =? DQUOTE)%N then Some DQUOTE
  else if (c =? BACKSLASH)%N then Some BACKSLASH
  else if (c =? 47)%N then Some 47%N
  else if (c =? 98)%N then Some 8%N
  else if (c =? 102)%N then Some 12%N
  else if (c =? 110)%N then Some 10%N
  else if (c =? 114)%N then Some 13%N
  else if (c =? 116)%N then Some 9%N
  else None.

(** Decodes the escape whose backslash is at index [pos]; [s] is the text
    after the backslash.  [consumed] counts the characters of [s] used. *)
Definition decode_escape (s : str) (pos : nat) : escape :=
  match s with
  | [] => EscUnterminated
  | c :: r =>
      if (c =? 117)%N then
        if length r <=? 4 then EscError (lit "Invalid \uXXXX escape") (pos + 1)
        else
          match hex4 r with
          | None => EscError (lit "Invalid \uXXXX escape") (pos + 1)
          | Some hi =>
              let r' := skipn 4 r in
              if ((55296 <=? hi) && (hi <=? 56319))%N
                 && (6 <? length r')
                 && Str.startswith [BACKSLASH; 117%N] r'
              then
                match hex4 (skipn 2 r') with
                | None => EscError (lit "Invalid \uXXXX escape") (pos + 7)
                | Some lo =>
                    if ((56320 <=? lo) && (lo <=? 57343))%N
                    then EscChar (65536 + (hi - 55296) * 1024 + (lo - 56320))%N 11
                    else EscChar hi 5
                end
              else EscChar hi 5
          end
      else
        match simple_escape c with
        | Some c' => EscChar c' 1
        | None => EscError (lit "Invalid \escape") pos
        end
  end.

(** The body of a string literal; [s] starts after the opening quote, which
    is at index [begin].  [skip] counts characters of an escape already
    decoded, [acc] is the content so far, reversed. *)
Fixpoint scanstring (s : str) (pos begin skip : nat) (acc : str) : scan str :=
  match s with
  | [] => Fail (lit "Unterminated string starting at") begin
  | c :: s' =>
      match skip with
      | S k => scanstring s' (S pos) begin k acc
      | O =>
          if (c =? DQUOTE)%N then Done (rev acc) s' (S pos)
          else if (c =? BACKSLASH)%N then
            match decode_escape s' pos with
            | EscChar c' k => scanstring s' (S pos) begin k (c' :: acc)
            | EscError msg p => Fail msg p
            | EscUnterminated =>
                Fail (lit "Unterminated string starting at") begin
            end
          else if (c <=? 31)%N then
            Fail (lit "Invalid control character at") pos
          else scanstring s' (S pos) begin 0 (c :: acc)
      end
  end.

(** Value of a run of decimal digits. *)
Definition digits_value (ds : str) : Z :=
  fold_left (fun acc c => (acc * 10 + Z.of_N (c - 48))%Z) ds 0%Z.

(** A number at index [pos]: an optional minus sign, then a single zero
    or a run of digits not starting with zero, then optionally a dot with
    one or more digits, then optionally e or E, an optional sign and one or
    more digits.  A fraction or exponent that does not complete is left
    unread. *)
Definition match_number (s : str) (pos : nat) : scan json :=
  let '(neg, s1) :=
    match s with
    | c :: r => if (c =? MINUS)%N then (true, r) else (false, s)
    | [] => (false, s)
    end in
  let int_part :=
    match s1 with
    | c :: r =>
        if (c =? 48)%N then Some ([c], r)
        else if is_digit c then Some (span_digits s1)
        else None
    | [] => None
    end in
  match int_part with
  | None => Stop pos
  | Some (ds, s2) =>
      let '(frac, s3) :=
        match s2 with
        | c :: d :: _ =>
            if (c =? DOT)%N && is_digit d
            then let '(fs, r) := span_digits (List.tl s2) in (c :: fs, r)
            else ([], s2)
        | _ => ([], s2)
        end in
      let '(expo, s4) :=
        match s3 with
        | e :: r =>
            if ((e =? 101) || (e =? 69))%N then
              let '(sign, r1) :=
                match r with
                | g :: r' =>
                    if ((g =? MINUS) || (g =? PLUS))%N then ([g], r') else ([], r)
                | [] => ([], r)
                end in
              match span_digits r1 with
              | ([], _) => ([], s3)
              | (es, r2) => (e :: sign ++ es, r2)
              end
            else ([], s3)
        | [] => ([], s3)
        end in
      let sign := if neg then [MINUS] else [] in
      let text := sign ++ ds ++ frac ++ expo in
      let v :=
        match frac, expo with
        | [], [] => JInt (if neg then - digits_value ds else digits_value ds)
        | _, _ => JFloat text
        end in
      Done v s4 (pos + length text)
  end.

(** A named constant at the head of [s]. *)
Definition match_constant (name : str) (v : json) (s : str) (pos : nat)
  : option (scan json) :=
  if Str.startswith name s
  then Some (Done v (skipn (length name) s) (pos + length name))
  else None.

(** [scan_once] with the loops of [_parse_object] and [_parse_array];
    [object_loop] starts where a key is expected, [array_loop] where an
    element is expected. *)
Fixpoint scan_once (fuel : nat) (s : str) (pos : nat) : scan json :=
  match fuel with
  | O => Exhausted
  | S fuel' =>
      match s with
      | [] => Stop pos
      | c :: s' =>
          if (c =? DQUOTE)%N then
            match scanstring s' (S pos) pos 0 [] with
            | Done v r p => Done (JStr v) r p
            | Stop p => Stop p
            | Fail m p => Fail m p
            | Exhausted => Exhausted
            end
          else if (c =? LBRACE)%N then
            let '(s1, p1) := skip_ws s' (S pos) in
            match s1 with
            | c1 :: r1 =>
                if (c1 =? RBRACE)%N then Done (JObj []) r1 (S p1)
                else object_loop fuel' s1 p1 []
            | [] => object_loop fuel' s1 p1 []
            end
          else if (c =? LBRACKET)%N then
            let '(s1, p1) := skip_ws s' (S pos) in
            match s1 with
            | c1 :: r1 =>
                if (c1 =? RBRACKET)%N then Done (JArr []) r1 (S p1)
                else array_loop fuel' s1 p1 []
            | [] => array_loop fuel' s1 p1 []
            end
          else
            match
              match_constant (lit "null") JNull s pos,
              match_constant (lit "true") (JBool true) s pos,
              match_constant (lit "false") (JBool false) s pos,
              match_constant (lit "NaN") (JFloat (lit "NaN")) s pos,
              match_constant (lit "Infinity") (JFloat (lit "Infinity")) s pos,
              match_constant (lit "-Infinity") (JFloat (lit "-Infinity")) s pos
            with
            | Some r, _, _, _, _, _
            | None, Some r, _, _, _, _
            | None, None, Some r, _, _, _
            | None, None, None, Some r, _, _
            | None, None, None, None, Some r, _
            | None, None, None, None, None, Some r => r
            | None, None, None, None, None, None => match_number s pos
            end
      end
  end
with object_loop (fuel : nat) (s : str) (pos : nat) (d : dict) : scan json :=
  match fuel with
  | O => Exhausted
  | S fuel' =>
      match s with
      | c :: s' =>
          if (c =? DQUOTE)%N then
            match scanstring s' (S pos) pos 0 [] with
            | Done key s1 p1 =>
                let '(s2, p2) := skip_ws s1 p1 in
                match s2 with
                | c2 :: s3 =>
                    if (c2 =? COLON)%N then
                      let '(s4, p4) := skip_ws s3 (S p2) in
                      match scan_once fuel' s4 p4 with
                      | Done v s5 p5 =>
                          let d' := dict_set d key v in
                          let '(s6, p6) := skip_ws s5 p5 in
                          match s6 with
                          | c6 :: s7 =>
                              if (c6 =? RBRACE)%N then Done (JObj d') s7 (S p6)
                              else if (c6 =? COMMA)%N then
                                let '(s8, p8) := skip_ws s7 (S p6) in
                                object_loop fuel' s8 p8 d'
                              else Fail (lit "Expecting ',' delimiter") p6
                          | [] => Fail (lit "Expecting ',' delimiter") p6
                          end
                      | Stop p => Stop p
                      | Fail m p => Fail m p
                      | Exhausted => Exhausted
                      end
                    else Fail (lit "Expecting ':' delimiter") p2
                | [] => Fail (lit "Expecting ':' delimiter") p2
                end
            | Stop p => Stop p
            | Fail m p => Fail m p
            | Exhausted => Exhausted
            end
          else
            Fail (lit "Expecting property name enclosed in double quotes") pos
      | [] =>
          Fail (lit "Expecting property name enclosed in double quotes") pos
      end
  end
with array_loop (fuel : nat) (s : str) (pos : nat) (items : list json)
  : scan json :=
  match fuel with
  | O => Exhausted
  | S fuel' =>
      match scan_once fuel' s pos with
      | Done v s1 p1 =>
          let items' := items ++ [v] in
          let '(s2, p2) := skip_ws s1 p1 in
          match s2 with
          | c2 :: s3 =>
              if (c2 =? RBRACKET)%N then Done (JArr items') s3 (S p2)
              else if (c2 =? COMMA)%N then
                let '(s4, p4) := skip_ws s3 (S p2) in
                array_loop fuel' s4 p4 items'
              else Fail (lit "Expecting ',' delimiter") p2
          | [] => Fail (lit "Expecting ',' delimiter") p2
          end
      | Stop p => Stop p
      | Fail m p => Fail m p
      | Exhausted => Exhausted
      end
  end.

(** Fuel that covers every document: of two calls in a row, one reads a
    character (see [JsonFacts.scan_once_fuel]). *)
Definition fuel_for (s : str) : nat := S (2 * length s).

(** [json.loads(s)] *)
Definition loads (s : str) : res json :=
  if Str.startswith [65279%N] s then
    Raise (JSONDecodeError
             (lit "Unexpected UTF-8 BOM (decode using utf-8-sig)") s 0)
  else
    let '(s0, p0) := skip_ws s 0 in
    match scan_once (fuel_for s) s0 p0 with
    | Done v s1 p1 =>
        let '(s2, p2) := skip_ws s1 p1 in
        match s2 with
        | [] => Ret v
        | _ :: _ => Raise (JSONDecodeError (lit "Extra data") s p2)
        end
    | Stop p => Raise (JSONDecodeError (lit "Expecting value") s p)
    | Fail m p => Raise (JSONDecodeError m s p)
    | Exhausted =>
        Raise (JSONDecodeError (lit "Expecting value") s (length s))
    end.

(** [str(e)] of a [JSONDecodeError]:
    ["msg: line L column C (char P)"]. *)
Definition count_newlines (s : str) : nat :=
  length (List.filter (fun c => (c =? 10)%N) s).

Definition colno (doc : str) (pos : nat) : nat :=
  match Str.rfind_at [10%N] (firstn pos doc) 0 with
  | Some i => pos - i
  | None => pos + 1
  end.

Definition errmsg (msg doc : str) (pos : nat) : str :=
  msg ++ lit ": line " ++ Str.of_nat (count_newlines (firstn pos doc) + 1)
      ++ lit " column " ++ Str.of_nat (colno doc pos)
      ++ lit " (char " ++ Str.of_nat pos ++ lit ")".

End Json.

(** ** Dynamic operations on Python values *)

(** [type(v).__name__] *)
Definition type_name (v : json) : str :=
  match v with
  | JNull => lit "NoneType"
  | JBool _ => lit "bool"
  | JInt _ => lit "int"
  | JFloat _ => lit "float"
  | JStr _ => lit "str"
  | JArr _ => lit "list"
  | JObj _ => lit "dict"
  end.

Definition no_attribute (v : json) (name : str) : exn :=
  AttributeError
    (lit "'" ++ type_name v ++ lit "' object has no attribute '" ++ name ++ lit "'").

(** [v.get(k, default)]: only a [dict] has [get]. *)
Definition py_get (v : json) (k : str) (default : json) : res json :=
  match v with
  | JObj d => Ret (match dict_get d k with Some x => x | None => default end)
  | _ => Raise (no_attribute v (lit "get"))
  end.

(** [len(v)] *)
Definition py_len (v : json) : res nat :=
  match v with
  | JStr s => Ret (length s)
  | JArr l => Ret (length l)
  | JObj d => Ret (length d)
  | _ => Raise (TypeError
                  (lit "object of type '" ++ type_name v ++ lit "' has no len()"))
  end.

(** The items [for f in v] visits: the elements of a list, the characters of
    a string, the keys of a dict. *)
Definition py_iter (v : json) : res (list json) :=
  match v with
  | JArr l => Ret l
  | JStr s => Ret (List.map (fun c => JStr [c]) s)
  | JObj d => Ret (List.map (fun kv => JStr (fst kv)) d)
  | _ => Raise (TypeError
                  (lit "'" ++ type_name v ++ lit "' object is not iterable"))
  end.

(** [str(e)] *)
Definition str_exn (e : exn) : str :=
  match e with
  | JSONDecodeError msg doc pos => Json.errmsg msg doc pos
  | AttributeError msg | TypeError msg | ValueError msg
  | ValidationError msg | GatewayError msg => msg
  end.

(** ** The data model ([app/models/review.py]) *)

(** The models are pydantic [BaseModel]s: a constructor call validates its
    keyword arguments against the declared field types and raises
    [ValidationError] when one does not fit.  Validation is modelled for the
    shapes of value [json.loads] produces, after pydantic 2's default mode: a
    [str] field takes strings only; an [int] field takes integers, booleans,
    floats with no fractional part and numeric strings; [Optional] adds
    [None]; [List[str]] takes lists of strings; [dict] takes any dict.
    Floats are decided on the exact decimal value of their literal. *)
Module Models.

Inductive SeverityLevel : Type := CRITICAL | HIGH | MEDIUM | LOW | INFO.

Definition severity_value (l : SeverityLevel) : str :=
  match l with
  | CRITICAL => lit "critical"
  | HIGH => lit "high"
  | MEDIUM => lit "medium"
  | LOW => lit "low"
  | INFO => lit "info"
  end.

Definition severity_levels : list SeverityLevel :=
  [CRITICAL; HIGH; MEDIUM; LOW; INFO].

(** [SeverityLevel(v)]: lookup of a member by value; [ValueError] when no
    member has that value. *)
Definition SeverityLevel_of (v : json) : res SeverityLevel :=
  match v with
  | JStr s =>
      match List.find (fun l => Str.eqb (severity_value l) s) severity_levels with
      | Some l => Ret l
      | None => Raise (ValueError (lit "not a valid SeverityLevel"))
      end
  | _ => Raise (ValueError (lit "not a valid SeverityLevel"))
  end.

Record Finding : Type := mkFinding {
  line_number : option Z;
  severity : SeverityLevel;
  category : str;
  title : str;
  description : str;
  suggestion : str;
  code_snippet : option str;
  fix_code : option str;
  documentation_link : option str;
  severity_reason : option str;
  examples : option (list str);
  best_practice : option str;
  effort_minutes : option Z;
  dimensions : option dict
}.

Record ReviewResponse : Type := mkReviewResponse {
  file_path : str;
  language : str;
  findings : list Finding;
  summary : str;
  total_issues : Z;
  token_usage : option dict
}.

(** *** Field validators; [None] is a validation failure *)

Definition validate_str (v : json) : option str :=
  match v with
  | JStr s => Some s
  | _ => None
  end.

Definition split_sign (s : str) : bool * str :=
  match s with
  | c :: r =>
      if (c =? Json.MINUS)%N then (true, r)
      else if (c =? Json.PLUS)%N then (false, r)
      else (false, s)
  | [] => (false, s)
  end.

Definition apply_sign (neg : bool) (z : Z) : Z := if neg then (- z)%Z else z.

(** The integer a float literal denotes, when it denotes one. *)
Definition float_as_int (lexeme : str) : option Z :=
  let '(neg, l1) := split_sign lexeme in
  let '(ds, l2) := Json.span_digits l1 in
  match ds with
  | [] => None
  | _ :: _ =>
      let '(fs, l3) :=
        match l2 with
        | c :: r => if (c =? Json.DOT)%N then Json.span_digits r else ([], l2)
        | [] => ([], l2)
        end in
      let ex :=
        match l3 with
        | _ :: r =>
            let '(eneg, r1) := split_sign r in
            apply_sign eneg (Json.digits_value (fst (Json.span_digits r1)))
        | [] => 0%Z
        end in
      let m := Json.digits_value (ds ++ fs) in
      let e := (ex - Z.of_nat (length fs))%Z in
      let magnitude :=
        if (0 <=? e)%Z then Some (m * 10 ^ e)%Z
        else if (m mod 10 ^ (- e) =? 0)%Z then Some (m / 10 ^ (- e))%Z
        else None in
      option_map (apply_sign neg) magnitude
  end.

(** The integer a string denotes: an optional sign and decimal digits,
    white space around them ignored. *)
Definition str_as_int (s : str) : option Z :=
  let '(neg, r) := split_sign (Str.strip s) in
  match Json.span_digits r with
  | ((_ :: _) as ds, []) => Some (apply_sign neg (Json.digits_value ds))
  | _ => None
  end.

Definition validate_int (v : json) : option Z :=
  match v with
  | JInt z => Some z
  | JBool b => Some (Z.b2z b)
  | JFloat l => float_as_int l
  | JStr s => str_as_int s
  | _ => None
  end.

(** [Optional[T]]: [None] is accepted and kept. *)
Definition validate_optional {A} (validate : json -> option A) (v : json)
  : option (option A) :=
  match v with
  | JNull => Some None
  | _ => option_map Some (validate v)
  end.

Fixpoint validate_all {A} (validate : json -> option A) (l : list json)
  : option (list A) :=
  match l with
  | [] => Some []
  | v :: l' =>
      match validate v, validate_all validate l' with
      | Some a, Some r => Some (a :: r)
      | _, _ => None
      end
  end.

Definition validate_list_str (v : json) : option (list str) :=
  match v with
  | JArr l => validate_all validate_str l
  | _ => None
  end.

Definition validate_dict (v : json) : option dict :=
  match v with
  | JObj d => Some d
  | _ => None
  end.

Definition validation_error (model field : str) : exn :=
  ValidationError
    (lit "1 validation error for " ++ model ++ [10%N] ++ field).

Definition field {A} (model name : str) (o : option A) : res A :=
  match o with
  | Some a => Ret a
  | None => Raise (validation_error model name)
  end.

(** [Finding(line_number=..., severity=..., ...)]; the arguments are the
    Python values passed, [severity] already a [SeverityLevel]. *)
Definition new_Finding
    (line_number_ : json) (severity_ : SeverityLevel)
    (category_ title_ description_ suggestion_ : json)
    (code_snippet_ fix_code_ documentation_link_ severity_reason_ : json)
    (examples_ best_practice_ effort_minutes_ dimensions_ : json)
  : res Finding :=
  let F := lit "Finding" in
  ln ← field F (lit "line_number") (validate_optional validate_int line_number_);
  ca ← field F (lit "category") (validate_str category_);
  ti ← field F (lit "title") (validate_str title_);
  de ← field F (lit "description") (validate_str description_);
  su ← field F (lit "suggestion") (validate_str suggestion_);
  cs ← field F (lit "code_snippet") (validate_optional validate_str code_snippet_);
  fc ← field F (lit "fix_code") (validate_optional validate_str fix_code_);
  dl ← field F (lit "documentation_link")
         (validate_optional validate_str documentation_link_);
  sr ← field F (lit "severity_reason")
         (validate_optional validate_str severity_reason_);
  ex ← field F (lit "examples") (validate_optional validate_list_str examples_);
  bp ← field F (lit "best_practice")
         (validate_optional validate_str best_practice_);
  em ← field F (lit "effort_minutes")
         (validate_optional validate_int effort_minutes_);
  di ← field F (lit "dimensions") (validate_optional validate_dict dimensions_);
  Ret (mkFinding ln severity_ ca ti de su cs fc dl sr ex bp em di).

(** [ReviewResponse(file_path=..., language=..., findings=..., summary=...,
    total_issues=...)]; [token_usage] takes its default [None].  The
    arguments that are typed in the source are taken at their type. *)
Definition new_ReviewResponse
    (file_path_ language_ : str) (findings_ : list Finding)
    (summary_ : json) (total_issues_ : Z)
  : res ReviewResponse :=
  su ← field (lit "ReviewResponse") (lit "summary") (validate_str summary_);
  Ret (mkReviewResponse file_path_ language_ findings_ su total_issues_ None).

End Models.

(** ** [ReviewService.parse_llm_response] ([app/services/review_service.py]) *)
Module ReviewService.
Import Models.

Abbreviation FENCE := (lit "```") (only parsing).
Abbreviation FENCE_JSON := (lit "```json") (only parsing).

(** The patterns of "Fix 2", which contain quotation marks: a quotation
    mark, a colon, a space and a quotation mark; the same without the
    space; a quotation mark and a comma; a quotation mark and a closing
    brace. *)
Definition QUOTE_COLON_SPACE_QUOTE : str :=
  [Json.DQUOTE; Json.COLON; 32%N; Json.DQUOTE].
Definition QUOTE_COLON_QUOTE : str := [Json.DQUOTE; Json.COLON; Json.DQUOTE].
Definition QUOTE_COMMA : str := [Json.DQUOTE; Json.COMMA].
Definition QUOTE_RBRACE : str := [Json.DQUOTE; Json.RBRACE].

(** Lines 204-216: removal of a markdown code block. *)
Definition strip_code_block (response : str) : str :=
  if Str.contains FENCE_JSON response then
    let start := (Str.find response FENCE_JSON 0 + 7)%Z in
    let end_ := Str.find response FENCE start in
    if (end_ >? start)%Z
    then Str.strip (Str.slice response start end_)
    else response
  else if Str.contains FENCE response then
    let start := (Str.find response FENCE 0 + 3)%Z in
    let end_ := Str.find response FENCE start in
    let response :=
      if (end_ >? start)%Z
      then Str.strip (Str.slice response start end_)
      else response in
    if Str.startswith (lit "json") response
    then Str.strip (Str.slice_from response 4)
    else response
  else response.

(** Lines 232-241: the loop [for i in range(start_idx, len(response))];
    [s] is [response[i:]], the result is [end_idx] when the loop ends. *)
Fixpoint match_brace (s : str) (i : nat) (brace_count : Z) (end_idx : nat)
  : nat :=
  match s with
  | [] => end_idx
  | c :: s' =>
      if (c =? Json.LBRACE)%N then
        match_brace s' (S i) (brace_count + 1)%Z end_idx
      else if (c =? Json.RBRACE)%N then
        let brace_count := (brace_count - 1)%Z in
        if (brace_count =? 0)%Z then S i
        else match_brace s' (S i) brace_count end_idx
      else match_brace s' (S i) brace_count end_idx
  end.

(** Lines 219-243: [json_str], or [None] when [start_idx == -1]. *)
Definition extract_json (response : str) : option str :=
  let start_idx := Str.find response (lit "{") 0 in
  if (start_idx =? -1)%Z then None
  else
    let brace_count := 0%Z in
    let end_idx := Z.to_nat start_idx in
    let end_idx :=
      match_brace (Str.slice_from response start_idx) (Z.to_nat start_idx)
        brace_count end_idx in
    Some (Str.slice response start_idx (Z.of_nat end_idx)).

(** Lines 264-265, "Fix 1", with the character literals as they stand in
    the source: both arguments of each [replace] are the same ASCII
    quotation mark. *)
Definition fix_quotes (json_str : str) : str :=
  let json_str :=
    Str.replace Json.DQUOTE [Json.DQUOTE]
      (Str.replace Json.DQUOTE [Json.DQUOTE] json_str) in
  Str.replace 39%N [39%N] (Str.replace 39%N [39%N] json_str).

(** Lines 275-292, "Fix 2" on one line. *)
Definition fix_line (line : str) : str :=
  if Str.contains (QUOTE_COLON_SPACE_QUOTE) line || Str.contains (QUOTE_COLON_QUOTE) line then
    match Str.split1 line (QUOTE_COLON_SPACE_QUOTE) with
    | [key_part; value_part] =>
        if Str.contains (QUOTE_COMMA) value_part
           || Str.contains (QUOTE_RBRACE) value_part
        then
          let value_end := Str.rfind value_part (QUOTE_COMMA) in
          let value_end :=
            if (value_end =? -1)%Z
            then Str.rfind value_part (QUOTE_RBRACE)
            else value_end in
          if (value_end >? 0)%Z then
            let value_content := Str.slice_to value_part value_end in
            let rest := Str.slice_from value_part value_end in
            let value_content :=
              Str.replace Json.DQUOTE [Json.BACKSLASH; Json.DQUOTE]
                value_content in
            key_part ++ QUOTE_COLON_SPACE_QUOTE ++ value_content ++ rest
          else line
        else line
    | _ => line
    end
  else line.

(** Lines 263-294: the "aggressive fixes". *)
Definition aggressive_fixes (json_str : str) : str :=
  let json_str := fix_quotes json_str in
  let lines := Str.split json_str [10%N] in
  let fixed_lines := List.map fix_line lines in
  Str.join [10%N] fixed_lines.

(** Lines 256-258 and 297-299: [json.loads] followed by the evaluation of
    [len(data.get('findings', []))] for the progress message. *)
Definition loads_and_count (json_str : str) : res json :=
  data ← Json.loads json_str;
  fs ← py_get data (lit "findings") (JArr []);
  _ ← py_len fs;
  Ret data.

(** Lines 316-331: the construction of one [Finding] from a raw record. *)
Definition make_finding (f : json) : res Finding :=
  line_number_ ← py_get f (lit "line_number") JNull;
  severity_raw ← py_get f (lit "severity") (JStr (lit "info"));
  severity_ ← SeverityLevel_of severity_raw;
  category_ ← py_get f (lit "category") (JStr (lit "other"));
  title_ ← py_get f (lit "title") (JStr []);
  description_ ← py_get f (lit "description") (JStr []);
  suggestion_ ← py_get f (lit "suggestion") (JStr []);
  code_snippet_ ← py_get f (lit "code_snippet") JNull;
  fix_code_ ← py_get f (lit "fix_code") JNull;
  documentation_link_ ← py_get f (lit "documentation_link") JNull;
  severity_reason_ ← py_get f (lit "severity_reason") JNull;
  examples_ ← py_get f (lit "examples") JNull;
  best_practice_ ← py_get f (lit "best_practice") JNull;
  effort_minutes_ ← py_get f (lit "effort_minutes") JNull;
  dimensions_ ← py_get f (lit "dimensions") JNull;
  new_Finding line_number_ severity_ category_ title_ description_
    suggestion_ code_snippet_ fix_code_ documentation_link_
    severity_reason_ examples_ best_practice_ effort_minutes_ dimensions_.

(** Lines 313-335: the loop over the raw records; a record whose
    construction raises is passed over. *)
Fixpoint collect_findings (items : list json) (findings_ : list Finding)
  : list Finding :=
  match items with
  | [] => findings_
  | f :: items' =>
      match make_finding f with
      | Ret finding => collect_findings items' (findings_ ++ [finding])
      | Raise _ => collect_findings items' findings_
      end
  end.

(** Lines 313-343: from the parsed [data] to the response. *)
Definition build_response (data : json) (file_path_ language_ : str)
  : res ReviewResponse :=
  raw ← py_get data (lit "findings") (JArr []);
  items ← py_iter raw;
  let findings_ := collect_findings items [] in
  summary_ ← py_get data (lit "summary") (JStr (lit "Review complete"));
  new_ReviewResponse file_path_ language_ findings_ summary_
    (Z.of_nat (length findings_)).

(** Lines 202-343: the body of the outer [try]. *)
Definition parse_body (response file_path_ language_ : str)
  : res ReviewResponse :=
  let response := strip_code_block response in
  match extract_json response with
  | None =>
      new_ReviewResponse file_path_ language_ []
        (JStr (lit "Could not find JSON in response")) 0
  | Some json_str =>
      match loads_and_count json_str with
      | Ret data => build_response data file_path_ language_
      | Raise (JSONDecodeError _ _ _) =>
          let json_str := aggressive_fixes json_str in
          match loads_and_count json_str with
          | Ret data => build_response data file_path_ language_
          | Raise (JSONDecodeError _ _ _ as e2) =>
              new_ReviewResponse file_path_ language_ []
                (JStr (lit "JSON parsing failed: " ++ str_exn e2
                         ++ lit ". Response may be truncated.")) 0
          | Raise e => Raise e
          end
      | Raise e => Raise e
      end
  end.

(** [parse_llm_response(self, response, file_path, language)] *)
Definition parse_llm_response (response file_path_ language_ : str)
  : res ReviewResponse :=
  try_except (parse_body response file_path_ language_)
    (fun e =>
       new_ReviewResponse file_path_ language_ []
         (JStr (lit "Error parsing review: " ++ str_exn e)) 0).

End ReviewService.

(** ** [OllamaService.generate_review] ([app/services/ollama_service.py]) *)

(** The Ollama client is an external service: [client.generate] is a
    parameter, a function of a world state that answers with a reply or
    raises.  A reply is a mapping whose keys may be missing. *)
Record GenerateReply : Type := mkReply {
  reply_response : option str;
  reply_eval_count : option Z;
  reply_prompt_eval_count : option Z
}.

Module OllamaService.
Section Client.
Variable World : Type.
(** [client.generate(model=, prompt=, system=, ...)] *)
Variable client_generate :
  str -> str -> str -> World -> res GenerateReply * World.
Variable model_name : str.

(** [generate_review(self, prompt, system_prompt=None)]: the returned
    [dict]. *)
Definition generate_review (prompt : str) (system_prompt : option str)
    (w : World) : json * World :=
  let system :=
    match system_prompt with
    | Some (_ :: _ as s) => s
    | _ => []
    end in
  match client_generate model_name prompt system w with
  | (Ret response, w') =>
      let eval_count := default 0%Z (reply_eval_count response) in
      let prompt_eval_count :=
        default 0%Z (reply_prompt_eval_count response) in
      (JObj [(lit "response", JStr (default [] (reply_response response)));
             (lit "eval_count", JInt eval_count);
             (lit "prompt_eval_count", JInt prompt_eval_count);
             (lit "total_tokens", JInt (eval_count + prompt_eval_count))],
       w')
  | (Raise e, w') =>
      (JObj [(lit "response",
              JStr (lit "Error generating review: " ++ str_exn e));
             (lit "error", JBool true)],
       w')
  end.
End Client.
End OllamaService.

(** ** [FixService] ([app/services/fix_service.py]) *)
Module FixService.
Import Models.

(** [needle in v] for a string [needle]: a substring test on a string, a
    key test on a dict, an element test on a list. *)
Definition py_contains (needle : str) (v : json) : res bool :=
  match v with
  | JStr s => Ret (Str.contains needle s)
  | JObj d => Ret (dict_mem d needle)
  | JArr l =>
      Ret (existsb (fun x => match x with
                             | JStr s => Str.eqb s needle
                             | _ => false
                             end) l)
  | _ => Raise (TypeError (lit "argument of type '" ++ type_name v
                             ++ lit "' is not iterable"))
  end.

(** [v.split(sep)]: only a string has [split]. *)
Definition py_split (v : json) (sep : str) : res (list str) :=
  match v with
  | JStr s => Ret (Str.split s sep)
  | _ => Raise (no_attribute v (lit "split"))
  end.

(** [v.strip()]: only a string has [strip]. *)
Definition py_strip (v : json) : res str :=
  match v with
  | JStr s => Ret (Str.strip s)
  | _ => Raise (no_attribute v (lit "strip"))
  end.

(** [get_fix_prompt(self, language, code_snippet, finding_description,
    suggestion)] *)
Definition get_fix_prompt
    (language_ code_snippet_ finding_description suggestion_ : str) : str :=
  lit "You are an expert " ++ language_
    ++ lit " developer. Generate a corrected/improved version of this code snippet."
    ++ [10; 10]%N ++ lit "Problem: " ++ finding_description
    ++ [10%N] ++ lit "Suggestion: " ++ suggestion_
    ++ [10; 10]%N ++ lit "Original code:"
    ++ [10%N] ++ lit "```" ++ language_
    ++ [10%N] ++ code_snippet_
    ++ [10%N] ++ lit "```"
    ++ [10; 10]%N
    ++ lit "Provide ONLY the corrected code in a code block, no explanation.".

(** Lines 45-56: the extraction of the code from the value
    [generate_review] returned. *)
Definition extract_code (language_ : str) (response : json) : res str :=
  fenced ← py_contains (lit "```") response;
  if (fenced : bool) then
    parts ← py_split response (lit "```");
    if 2 <=? length parts then
      let code := Str.strip (nth 1 parts []) in
      let code :=
        if Str.startswith language_ code
        then Str.strip (Str.slice_from code (Z.of_nat (length language_)))
        else code in
      Ret code
    else py_strip response
  else py_strip response.

Section Service.
Variable World : Type.
Variable client_generate :
  str -> str -> str -> World -> res GenerateReply * World.
Variable model_name : str.

(** A [Finding] is a mutable object: the store maps the address of each
    live instance to its fields, a list of findings is a list of
    addresses. *)
Abbreviation loc := nat (only parsing).
Abbreviation store := (gmap nat Finding) (only parsing).

(** [generate_fix(self, language, code_snippet, finding)] *)
Definition generate_fix (language_ code_snippet_ : str) (finding : Finding)
    (w : World) : res (option str) * World :=
  match code_snippet_ with
  | [] => (Ret None, w)
  | _ :: _ =>
      let prompt :=
        get_fix_prompt language_ code_snippet_
          (description finding) (suggestion finding) in
      let system_prompt :=
        lit "You are an expert " ++ language_
          ++ lit " developer. Generate corrected code." in
      let '(response, w') :=
        OllamaService.generate_review World client_generate model_name
          system_prompt (Some prompt) w in
      (try_except (code ← extract_code language_ response; Ret (Some code))
         (fun _ => Ret None),
       w')
  end.

(** [finding.fix_code = fix] *)
Definition set_fix_code (finding : Finding) (fix_ : option str) : Finding :=
  {| line_number := line_number finding;
     severity := severity finding;
     category := category finding;
     title := title finding;
     description := description finding;
     suggestion := suggestion finding;
     code_snippet := code_snippet finding;
     fix_code := fix_;
     documentation_link := documentation_link finding;
     severity_reason := severity_reason finding;
     examples := examples finding;
     best_practice := best_practice finding;
     effort_minutes := effort_minutes finding;
     dimensions := dimensions finding |}.

(** Line 66: [finding.line_number and 1 <= finding.line_number <=
    len(lines)] *)
Definition on_a_line (finding : Finding) (lines : list str) : option Z :=
  match line_number finding with
  | Some n =>
      if negb (n =? 0)%Z && (1 <=? n)%Z && (n <=? Z.of_nat (length lines))%Z
      then Some n
      else None
  | None => None
  end.

(** Lines 65-74: the loop over [findings]; an address with no object
    behind it does not occur and is passed over. *)
Fixpoint fix_each (language_ : str) (lines : list str) (findings_ : list loc)
    (w : World) (h : store) : res unit * World * store :=
  match findings_ with
  | [] => (Ret tt, w, h)
  | a :: rest =>
      match h !! a with
      | Some finding =>
          match on_a_line finding lines with
          | Some n =>
              let start_line := Z.max 0 (n - 2) in
              let end_line := Z.min (Z.of_nat (length lines)) (n + 2) in
              let code_snippet_ :=
                Str.join [10%N] (Str.slice lines start_line end_line) in
              match generate_fix language_ code_snippet_ finding w with
              | (Ret fix_, w') =>
                  fix_each language_ lines rest w'
                    (<[a := set_fix_code finding fix_]> h)
              | (Raise e, w') => (Raise e, w', h)
              end
          | None => fix_each language_ lines rest w h
          end
      | None => fix_each language_ lines rest w h
      end
  end.

(** [generate_fixes_for_findings(self, code_content, language,
    findings)]: returns the list it was given. *)
Definition generate_fixes_for_findings
    (code_content language_ : str) (findings_ : list loc)
    (w : World) (h : store) : res (list loc) * World * store :=
  let lines := Str.split code_content [10%N] in
  match fix_each language_ lines findings_ w h with
  | (Ret _, w', h') => (Ret findings_, w', h')
  | (Raise e, w', h') => (Raise e, w', h')
  end.

End Service.
End FixService.

(** ** The vocabulary of the specification *)
Module Spec.
Import Models ReviewService.

(** *** What a call of [parse_llm_response] can return

    [NoJsonFound]: the cleaned response has no opening brace.
    [ParseFailed]: the candidate does not parse, before or after the fixes.
    [Unexpected]: some other exception reached the outer handler.
    [Parsed]: the candidate, as extracted or as fixed, parsed to the dict
    [d]; the findings are those built from its [findings], the summary is
    its [summary]. *)
Inductive parse_outcome (response file_path_ language_ : str)
  : ReviewResponse -> Prop :=
| NoJsonFound :
    extract_json (strip_code_block response) = None ->
    parse_outcome response file_path_ language_
      (mkReviewResponse file_path_ language_ []
         (lit "Could not find JSON in response") 0 None)
| ParseFailed json_str msg doc pos :
    extract_json (strip_code_block response) = Some json_str ->
    Json.loads (aggressive_fixes json_str) = Raise (JSONDecodeError msg doc pos) ->
    parse_outcome response file_path_ language_
      (mkReviewResponse file_path_ language_ []
         (lit "JSON parsing failed: " ++ Json.errmsg msg doc pos
            ++ lit ". Response may be truncated.") 0 None)
| Unexpected e :
    parse_outcome response file_path_ language_
      (mkReviewResponse file_path_ language_ []
         (lit "Error parsing review: " ++ str_exn e) 0 None)
| Parsed json_str d items summary_ :
    extract_json (strip_code_block response) = Some json_str ->
    Json.loads json_str = Ret (JObj d)
    \/ Json.loads (aggressive_fixes json_str) = Ret (JObj d) ->
    py_iter (default (JArr []) (dict_get d (lit "findings"))) = Ret items ->
    default (JStr (lit "Review complete")) (dict_get d (lit "summary"))
    = JStr summary_ ->
    parse_outcome response file_path_ language_
      (mkReviewResponse file_path_ language_ (collect_findings items [])
         summary_ (Z.of_nat (length (collect_findings items []))) None).

(** *** Valid raw records

    A raw record is valid when it is an object each of whose known keys,
    if present, holds a value of the JSON type the [Finding] field
    declares; the optional fields may also hold [null]. *)
Definition is_str (v : json) : bool :=
  match v with JStr _ => true | _ => false end.

Definition is_int (v : json) : bool :=
  match v with JInt _ => true | _ => false end.

Definition is_str_list (v : json) : bool :=
  match v with JArr l => forallb is_str l | _ => false end.

Definition is_dict (v : json) : bool :=
  match v with JObj _ => true | _ => false end.

Definition is_null_or (ok : json -> bool) (v : json) : bool :=
  match v with JNull => true | _ => ok v end.

(** The value is one of the five severity names. *)
Definition is_severity (v : json) : bool :=
  match v with
  | JStr s => existsb (fun l => Str.eqb (severity_value l) s) severity_levels
  | _ => false
  end.

(** The key is absent, or its value passes [ok]. *)
Definition has (d : dict) (k : string) (ok : json -> bool) : bool :=
  match dict_get d (lit k) with
  | Some v => ok v
  | None => true
  end.

Definition valid_fields (d : dict) : bool :=
  has d "line_number" (is_null_or is_int)
  && has d "category" is_str
  && has d "title" is_str
  && has d "description" is_str
  && has d "suggestion" is_str
  && has d "code_snippet" (is_null_or is_str)
  && has d "fix_code" (is_null_or is_str)
  && has d "documentation_link" (is_null_or is_str)
  && has d "severity_reason" (is_null_or is_str)
  && has d "examples" (is_null_or is_str_list)
  && has d "best_practice" (is_null_or is_str)
  && has d "effort_minutes" (is_null_or is_int)
  && has d "dimensions" (is_null_or is_dict).

Definition valid_record (f : json) : bool :=
  match f with
  | JObj d => has d "severity" is_severity && valid_fields d
  | _ => false
  end.

(** The record is an object whose [severity] is a string outside the
    enumeration. *)
Definition invalid_severity (f : json) : Prop :=
  exists d s,
    f = JObj d /\ dict_get d (lit "severity") = Some (JStr s)
    /\ is_severity (JStr s) = false.

(** *** Fenced code blocks

    [fenced tag J]: an opening fence with the tag [tag] (possibly empty),
    a line feed, [J], a line feed, and a closing fence. *)
Definition fenced (tag J : str) : str :=
  lit "```" ++ tag ++ [10%N] ++ J ++ [10%N] ++ lit "```".

(** [J] is the text of a valid JSON object. *)
Definition json_object_text (J : str) : Prop :=
  exists d, Json.loads J = Ret (JObj d).

(** *** Truncated responses

    The excess of opening over closing braces in a text; a text is
    truncated when it has an opening brace and, from the first one on, the
    excess of no non-empty prefix is zero. *)
Definition brace_excess (s : str) : Z :=
  fold_left (fun n c => if (c =? Json.LBRACE)%N then (n + 1)%Z
                        else if (c =? Json.RBRACE)%N then (n - 1)%Z
                        else n) s 0%Z.

Definition truncated (response : str) : Prop :=
  exists before after,
    response = before ++ Json.LBRACE :: after
    /\ (Json.LBRACE ∉ before)
    /\ forall k, brace_excess (firstn (S k) (Json.LBRACE :: after)) <> 0%Z.

(** *** The candidate, structurally

    [close_at s count]: the number of characters of [s] read when the
    running brace count, started at [count], first comes back to zero on a
    closing brace.  [candidate s]: the text from the first opening brace
    to that closing brace; empty when there is none. *)
Fixpoint close_at (s : str) (count : Z) : option nat :=
  match s with
  | [] => None
  | c :: s' =>
      if (c =? Json.LBRACE)%N then S <$> close_at s' (count + 1)%Z
      else if (c =? Json.RBRACE)%N then
        if (count - 1 =? 0)%Z then Some 1
        else S <$> close_at s' (count - 1)%Z
      else S <$> close_at s' count
  end.

Fixpoint candidate (s : str) : option str :=
  match s with
  | [] => None
  | c :: s' =>
      if (c =? Json.LBRACE)%N
      then Some (firstn (default 0 (close_at s 0%Z)) s)
      else candidate s'
  end.

(** A character that is not a brace. *)
Definition no_brace (c : char) : Prop := c <> Json.LBRACE /\ c <> Json.RBRACE.

(** *** Frame of fix generation: two findings that agree on every field
    other than [fix_code]. *)
Definition same_except_fix_code (f f' : Finding) : Prop :=
  line_number f' = line_number f
  /\ severity f' = severity f
  /\ category f' = category f
  /\ title f' = title f
  /\ description f' = description f
  /\ suggestion f' = suggestion f
  /\ code_snippet f' = code_snippet f
  /\ documentation_link f' = documentation_link f
  /\ severity_reason f' = severity_reason f
  /\ examples f' = examples f
  /\ best_practice f' = best_practice f
  /\ effort_minutes f' = effort_minutes f
  /\ dimensions f' = dimensions f.

(** Two stores with the same addresses whose findings agree outside
    [fix_code]. *)
Definition frame (h h' : gmap nat Finding) : Prop :=
  forall a, option_Forall2 same_except_fix_code (h !! a) (h' !! a).

End Spec.

(** ** [ReviewService.get_system_prompt] and [ReviewService.review_code]
    ([app/services/review_service.py]) *)
Module ReviewCode.
Import Models ReviewService.

(** [d.get(k)] on a table with string keys. *)
Fixpoint table_get {A} (d : list (str * A)) (k : str) : option A :=
  match d with
  | [] => None
  | (k', v) :: d' => if Str.eqb k' k then Some v else table_get d' k
  end.

(** Lines 11-134. *)
Definition LANGUAGE_GUIDELINES : list (str * list str) :=
  [(lit "python",
     [lit "Follow PEP 8 style guide (max 79 chars per line for code)";
      lit "Use meaningful, descriptive variable names (snake_case)";
      lit "Add type hints for function signatures and complex logic";
      lit "Avoid mutable default arguments (use None as default)";
      lit "Use context managers (with statement) for file/resource handling";
      lit "Import organization: stdlib, third-party, local (in order)";
      lit "Use docstrings for all modules, classes, and public functions";
      lit "Prefer list comprehensions over loops for simple transformations";
      lit "Use enumerate() when you need both index and value";
      lit "Avoid bare except clauses - catch specific exceptions";
      lit "Use f-strings for string formatting (Python 3.6+)"]);
   (lit "javascript",
     [lit "Follow Airbnb JavaScript Style Guide";
      lit "Use const by default, let when reassignment needed";
      lit "Never use var - use const or let";
      lit "Use arrow functions for callbacks, avoid function keyword";
      lit "Handle promises with async/await, avoid callback hell";
      lit "Use template literals for string interpolation";
      lit "Add JSDoc comments for public functions";
      lit "Avoid side effects outside of functions";
      lit "Use destructuring for objects and arrays";
      lit "Validate user input and API responses";
      lit "Use === for comparison, never =="]);
   (lit "typescript",
     [lit "Use strict TypeScript settings in tsconfig.json";
      lit "Avoid 'any' type - use specific types or generics";
      lit "Use interfaces for object contracts";
      lit "Use enums for fixed sets of constants";
      lit "Add explicit return type annotations to functions";
      lit "Use readonly for immutable properties";
      lit "Use access modifiers (public, private, protected) explicitly";
      lit "Prefer type over interface for unions/primitives";
      lit "Use generics for reusable type-safe components";
      lit "Add type guards for runtime type safety"]);
   (lit "java",
     [lit "Follow Java naming conventions (CamelCase for classes)";
      lit "Use meaningful variable names (camelCase)";
      lit "Keep methods focused with single responsibility";
      lit "Add Javadoc comments for public classes and methods";
      lit "Use proper exception handling, never swallow exceptions";
      lit "Use try-with-resources for resource management";
      lit "Avoid null - use Optional or objects with defaults";
      lit "Use final for classes/methods that shouldn't be overridden";
      lit "Prefer composition over inheritance";
      lit "Use dependency injection for better testability"]);
   (lit "csharp",
     [lit "Follow PascalCase for class and method names";
      lit "Use camelCase for local variables and parameters";
      lit "Add XML documentation comments (///) for public members";
      lit "Use null-coalescing operator (??) to handle nulls";
      lit "Use using statements for IDisposable objects";
      lit "Prefer async/await over callbacks";
      lit "Use LINQ for collection operations";
      lit "Use properties instead of public fields";
      lit "Add proper access modifiers (public, private, protected)";
      lit "Use const for values that never change"]);
   (lit "cpp",
     [lit "Use meaningful variable and function names";
      lit "Add comments for complex algorithms";
      lit "Use RAII for resource management";
      lit "Avoid raw pointers - use smart pointers (unique_ptr, shared_ptr)";
      lit "Follow const correctness (const parameters and methods)";
      lit "Use references instead of pointers when possible";
      lit "Avoid global variables";
      lit "Use namespaces to avoid name collisions";
      lit "Add const to function parameters that shouldn't be modified";
      lit "Use standard algorithms and containers from STL"]);
   (lit "go",
     [lit "Follow Go naming conventions (CamelCase for exports)";
      lit "Use error returns, not exceptions";
      lit "Add comments for all exported functions and types";
      lit "Keep functions small and focused";
      lit "Use interfaces for abstraction";
      lit "Avoid global variables";
      lit "Use defer for cleanup operations";
      lit "Prefer composition over inheritance";
      lit "Use go fmt for consistent formatting";
      lit "Handle errors explicitly - don't ignore them"]);
   (lit "rust",
     [lit "Follow Rust naming conventions (snake_case for functions)";
      lit "Use meaningful variable names";
      lit "Add documentation comments (///) for public items";
      lit "Use Result/Option types instead of panicking";
      lit "Avoid unwrap() in production code - use ? operator";
      lit "Use lifetimes appropriately for borrowed references";
      lit "Prefer iterators over loops";
      lit "Use pattern matching instead of conditionals";
      lit "Add #[derive] attributes when appropriate";
      lit "Use tests with #[cfg(test)]"]);
   (lit "php",
     [lit "Follow PSR-12 coding standard";
      lit "Use meaningful variable names (camelCase)";
      lit "Add type declarations for function parameters and returns";
      lit "Use type hints (int, string, array, etc.)";
      lit "Avoid global variables - use dependency injection";
      lit "Use proper exception handling";
      lit "Escape output properly to prevent XSS";
      lit "Validate and sanitize all user input";
      lit "Use prepared statements to prevent SQL injection";
      lit "Add PHPDoc comments for functions and classes"]);
   (lit "ruby",
     [lit "Follow Ruby naming conventions (snake_case for methods)";
      lit "Use meaningful, descriptive variable names";
      lit "Keep methods small and focused";
      lit "Add comments using # for complex logic";
      lit "Use string interpolation (#{}) instead of concatenation";
      lit "Prefer symbols over strings for keys";
      lit "Use blocks and iterators instead of loops";
      lit "Add type hints in comments for clarity";
      lit "Avoid instance variables when not needed";
      lit "Use attr_reader, attr_writer, attr_accessor appropriately"])].

(** [get_system_prompt(self, language, custom_guidelines=None)]; the
    doubled braces of the f-string are single braces of the text. *)
Definition get_system_prompt (language_ : str)
    (custom_guidelines : option (list str)) : str :=
  let guidelines :=
    match custom_guidelines with
    | Some ((_ :: _) as gs) => gs
    | _ => default [] (table_get LANGUAGE_GUIDELINES language_)
    end in
  let guidelines_text :=
    Str.join [10%N] (List.map (fun g => lit "- " ++ g) guidelines) in
  lit "You are a THOROUGH expert code reviewer for "
  ++ language_
  ++ Str.join [10%N]
      [lit " code. Your role is to:";
       lit "1. Find EVERY issue - analyze code for bugs, security issues, performance problems, and style issues";
       lit "2. Identify ALL best practice violations - be comprehensive and thorough";
       lit "3. Suggest improvements and refactoring opportunities";
       lit "4. Rate severity (critical, high, medium, low, info)";
       lit "5. Provide specific, actionable recommendations with code examples";
       lit "6. Document findings with explanations and best practices";
       lit "7. Estimate effort needed to fix each issue (in minutes)";
       lit "8. Categorize issues across multiple dimensions: security, performance, style, architecture, testing, documentation";
       [];
       lit "CRITICAL: Be THOROUGH. Review EVERY line. Look for:";
       lit "- Shadowed built-ins (list, dict, str, etc.)";
       lit "- Missing docstrings on ALL classes and functions";
       lit "- Missing error handling (try/except, validation)";
       lit "- Unclear variable names (x, data, result, etc.)";
       lit "- Inefficient loops (use comprehensions, enumerate)";
       lit "- Missing type hints";
       lit "- Empty pass statements";
       lit "- Magic numbers";
       lit "- Potential runtime errors (division by zero, index errors)";
       lit "- Security issues (input validation, SQL injection, etc.)";
       [];
       lit "Guidelines to follow:";
       []]
  ++ guidelines_text
  ++ Str.join [10%N]
      [[];
       [];
       lit "Respond in JSON format with this structure:";
       lit "{";
       jlit "    'findings': [";
       lit "        {";
       jlit "            'line_number': <int or null>,";
       jlit "            'severity': '<critical|high|medium|low|info>',";
       jlit "            'category': '<style|performance|security|architecture|testing|documentation>',";
       jlit "            'title': '<short title>',";
       jlit "            'description': '<detailed description>',";
       jlit "            'suggestion': '<specific recommendation>',";
       jlit "            'code_snippet': '<relevant code excerpt or null>',";
       jlit "            'severity_reason': '<why this severity level>',";
       jlit "            'documentation_link': '<link to relevant docs or null>',";
       jlit "            'best_practice': '<what is the best practice alternative>',";
       jlit "            'examples': ['<example of bad pattern>', '<example of good pattern>'],";
       jlit "            'effort_minutes': <estimated minutes to fix (5-120)>,";
       jlit "            'dimensions': {";
       jlit "                'security': <0-10 security impact>,";
       jlit "                'performance': <0-10 performance impact>,";
       jlit "                'maintainability': <0-10 maintainability impact>,";
       jlit "                'testing': <0-10 testability impact>";
       lit "            }";
       lit "        }";
       lit "    ],";
       jlit "    'summary': '<overall assessment>',";
       jlit "    'total_issues': <number>";
       lit "}";
       [];
       lit "Be thorough but concise. Always provide severity_reason, best_practice, effort_minutes and dimensions."].

(** Lines 362-406: [user_prompt]; the check marks are U+2713. *)
Definition user_prompt (code_content language_ : str) : str :=
  lit "Review this "
  ++ language_
  ++ Str.join [10%N]
      [lit " code LINE BY LINE. You MUST find AT LEAST 5-10 issues if they exist.";
       [];
       lit "MANDATORY CHECKS FOR EVERY FUNCTION/CLASS:";
       [10003%N] ++ lit " Does it shadow built-ins? (list, dict, str, sum, etc.)";
       [10003%N] ++ lit " Does it have a docstring?";
       [10003%N] ++ lit " Does it have error handling?";
       [10003%N] ++ lit " Are variable names descriptive?";
       [10003%N] ++ lit " Are there type hints?";
       [10003%N] ++ lit " Could it raise exceptions? (division by zero, index errors)";
       [10003%N] ++ lit " Is the code efficient? (avoid range(len()), use enumerate)";
       [10003%N] ++ lit " Are there empty pass statements?";
       [10003%N] ++ lit " Are there magic numbers?";
       [];
       lit "Code to review:";
       []]
  ++ code_content
  ++ Str.join [10%N]
      [[];
       [];
       lit "CRITICAL: For EVERY finding, you MUST provide:";
       lit "1. code_snippet: Extract 2-5 lines showing the problematic code";
       lit "2. fix_code: Provide the corrected version of that code snippet";
       [];
       lit "BE THOROUGH. Find MULTIPLE issues per function if they exist.";
       [];
       lit "Return ONLY valid JSON (no markdown, no extra text):";
       lit "{";
       jlit "    'findings': [";
       lit "        {";
       jlit "            'line_number': 3,";
       jlit "            'severity': 'medium',";
       jlit "            'category': 'style',";
       jlit "            'title': 'Issue title',";
       jlit "            'description': 'What" ++ lit "'s wrong" ++ jlit "',";
       jlit "            'suggestion': 'How to fix',";
       jlit "            'code_snippet': 'def bad_function(list):\n    return list[0]',";
       jlit "            'fix_code': 'def good_function(items):\n    '''Get first item from list.'''\n    return items[0] if items else None',";
       jlit "            'severity_reason': 'Why this matters',";
       jlit "            'documentation_link': null,";
       jlit "            'best_practice': 'Better approach',";
       jlit "            'examples': ['Bad: old way', 'Good: new way'],";
       jlit "            'effort_minutes': 10,";
       jlit "            'dimensions': {'security': 3, 'performance': 5, 'maintainability': 7, 'testing': 4}";
       lit "        }";
       lit "    ],";
       jlit "    'summary': 'Overall assessment',";
       jlit "    'total_issues': 1";
       lit "}"].

(** Whether the float a literal denotes is zero: the literal has the value
    [m * 10 ^ e], which is rounded to zero when it is at most [2 ^ -1075];
    [NaN] and the infinities have no digits and are not zero. *)
Definition float_is_zero (lexeme : str) : bool :=
  let '(_, l1) := split_sign lexeme in
  let '(ds, l2) := Json.span_digits l1 in
  match ds with
  | [] => false
  | _ :: _ =>
      let '(fs, l3) :=
        match l2 with
        | c :: r => if (c =? Json.DOT)%N then Json.span_digits r else ([], l2)
        | [] => ([], l2)
        end in
      let ex :=
        match l3 with
        | _ :: r =>
            let '(eneg, r1) := split_sign r in
            apply_sign eneg (Json.digits_value (fst (Json.span_digits r1)))
        | [] => 0%Z
        end in
      let m := Json.digits_value (ds ++ fs) in
      let e := (ex - Z.of_nat (length fs))%Z in
      if (0 <=? e)%Z then (m =? 0)%Z
      else (m * 2 ^ 1075 <=? 10 ^ (- e))%Z
  end.

(** [bool(v)] *)
Definition py_truthy (v : json) : bool :=
  match v with
  | JNull => false
  | JBool b => b
  | JInt z => negb (z =? 0)%Z
  | JFloat l => negb (float_is_zero l)
  | JStr s => match s with [] => false | _ :: _ => true end
  | JArr l => match l with [] => false | _ :: _ => true end
  | JObj d => match d with [] => false | _ :: _ => true end
  end.

(** [v[:n]], evaluated for a progress message: a string and a list have
    prefixes, a dict takes no slice as a key, the other values take no
    subscript. *)
Definition py_prefix (v : json) : res unit :=
  match v with
  | JStr _ | JArr _ => Ret tt
  | JObj _ => Raise (TypeError (lit "unhashable type: 'slice'"))
  | _ => Raise (TypeError (lit "'" ++ type_name v
                             ++ lit "' object is not subscriptable"))
  end.

(** [parse_llm_response] on a value that need not be a string: the first
    substring test raises on a value that is no container, [find] is
    missing on a list and on a dict; the outer handler of
    [parse_llm_response] reports either. *)
Definition parse_llm_response_of (v : json) (file_path_ language_ : str)
  : res ReviewResponse :=
  match v with
  | JStr s => parse_llm_response s file_path_ language_
  | JArr _ | JObj _ =>
      new_ReviewResponse file_path_ language_ []
        (JStr (lit "Error parsing review: "
                 ++ str_exn (no_attribute v (lit "find")))) 0
  | _ =>
      new_ReviewResponse file_path_ language_ []
        (JStr (lit "Error parsing review: argument of type '"
                 ++ type_name v ++ lit "' is not iterable")) 0
  end.

(** [review.token_usage = usage] *)
Definition set_token_usage (review : ReviewResponse) (usage : dict)
  : ReviewResponse :=
  {| file_path := file_path review;
     language := language review;
     findings := findings review;
     summary := summary review;
     total_issues := total_issues review;
     token_usage := Some usage |}.

Section Service.
Variable World : Type.
Variable client_generate :
  str -> str -> str -> World -> res GenerateReply * World.
Variable model_name : str.

(** [_print_comprehensive_review(self, review, language)] writes the report
    to the terminal.  It reads the review and changes nothing in it; it can
    raise, since it draws for every score of [dimensions] a bar of as many
    characters as the score, whatever the score is.  The terminal is part
    of the world, and the report is a parameter. *)
Variable print_comprehensive_review :
  ReviewResponse -> str -> World -> res unit * World.

(** Lines 409-451, up to the report: the early answer of a failed
    generation on the left, the parsed review with its token usage on the
    right. *)
Definition read_llm_response (llm_response : json) (file_path_ language_ : str)
  : res (ReviewResponse + ReviewResponse) :=
  shown ← py_get llm_response (lit "response") (JStr (lit "NO RESPONSE"));
  _ ← py_prefix shown;
  error ← py_get llm_response (lit "error") JNull;
  if py_truthy error then
    summary_ ← py_get llm_response (lit "response")
                 (JStr (lit "Error during review"));
    review ← new_ReviewResponse file_path_ language_ [] summary_ 0;
    Ret (inl review)
  else
    response_text ← py_get llm_response (lit "response") (JStr []);
    _ ← py_prefix response_text;
    review ← parse_llm_response_of response_text file_path_ language_;
    prompt_tokens ← py_get llm_response (lit "prompt_eval_count") (JInt 0);
    completion_tokens ← py_get llm_response (lit "eval_count") (JInt 0);
    total_tokens ← py_get llm_response (lit "total_tokens") (JInt 0);
    Ret (inr (set_token_usage review
                [(lit "prompt_tokens", prompt_tokens);
                 (lit "completion_tokens", completion_tokens);
                 (lit "total_tokens", total_tokens)])).

(** [review_code(self, code_content, language, file_path,
    custom_guidelines=None)] *)
Definition review_code (code_content language_ file_path_ : str)
    (custom_guidelines : option (list str)) (w : World)
  : res ReviewResponse * World :=
  let system_prompt := get_system_prompt language_ custom_guidelines in
  let '(llm_response, w) :=
    OllamaService.generate_review World client_generate model_name
      (user_prompt code_content language_) (Some system_prompt) w in
  match read_llm_response llm_response file_path_ language_ with
  | Ret (inl review) => (Ret review, w)
  | Ret (inr review) =>
      match print_comprehensive_review review language_ w with
      | (Ret _, w') => (Ret review, w')
      | (Raise e, w') => (Raise e, w')
      end
  | Raise e => (Raise e, w)
  end.

End Service.
End ReviewCode.

(** ** The fix endpoint ([app/routes/review_routes.py]) *)
Module ReviewRoutes.

(** [FixRequest] of [app/models/review.py]; [request_language] is
    [request.language], and so on. *)
Record FixRequest : Type := mkFixRequest {
  request_language : str;
  request_code_snippet : str;
  request_description : str;
  request_suggestion : str
}.

Section Routes.
Variable World : Type.
Variable client_generate :
  str -> str -> str -> World -> res GenerateReply * World.
Variable model_name : str.

(** Lines 74-98: the handler of [POST /api/fix/generate] that takes a
    [FixRequest], the first of the two registered for the path; the
    arguments the constructor of [Finding] is not given have the default
    [None]. *)
Definition generate_fix (request : FixRequest) (w : World) : json * World :=
  match
    Models.new_Finding JNull Models.MEDIUM (JStr (lit "auto-fix"))
      (JStr (lit "Auto-fix")) (JStr (request_description request))
      (JStr (request_suggestion request))
      JNull JNull JNull JNull JNull JNull JNull JNull
  with
  | Ret temp_finding =>
      match
        FixService.generate_fix World client_generate model_name
          (request_language request) (request_code_snippet request) temp_finding w
      with
      | (Ret fix_code, w') =>
          (JObj [(lit "success", JBool true);
                 (lit "fix_code", from_option JStr JNull fix_code);
                 (lit "original", JStr (request_code_snippet request))],
           w')
      | (Raise e, w') =>
          (JObj [(lit "success", JBool false); (lit "error", JStr (str_exn e))],
           w')
      end
  | Raise e =>
      (JObj [(lit "success", JBool false); (lit "error", JStr (str_exn e))], w)
  end.

End Routes.
End ReviewRoutes.

(** ** The command line ([cli.py]) *)
Module Cli.
Import Models.

(** Lines 60-61: the guidelines read from the text of a guidelines file. *)
Definition load_guidelines (text : str) : list str :=
  let custom_guidelines := Str.split (Str.strip text) [10%N] in
  List.map Str.strip
    (List.filter (fun g => match Str.strip g with [] => false | _ :: _ => true end)
       custom_guidelines).

(** Lines 86-91: the dict that maps the value of a severity to the list of
    the findings that have it, in the order they are met. *)
Fixpoint group_findings (findings_ : list Finding)
    (findings_by_severity : gmap str (list Finding))
  : gmap str (list Finding) :=
  match findings_ with
  | [] => findings_by_severity
  | finding :: rest =>
      let severity_ := severity_value (severity finding) in
      let findings_by_severity :=
        match findings_by_severity !! severity_ with
        | None => <[severity_ := []]> findings_by_severity
        | Some _ => findings_by_severity
        end in
      group_findings rest
        (<[severity_ := default [] (findings_by_severity !! severity_)
                          ++ [finding]]> findings_by_severity)
  end.

(** Lines 84-98: the groups the report shows, in the order it shows them,
    each with its severity and its findings; none when there is no
    finding. *)
Definition displayed_groups (result : ReviewResponse)
  : list (str * list Finding) :=
  match findings result with
  | [] => []
  | _ :: _ =>
      let findings_by_severity := group_findings (findings result) ∅ in
      flat_map
        (fun severity_ =>
           match findings_by_severity !! severity_ with
           | Some group => [(severity_, group)]
           | None => []
           end)
        [lit "critical"; lit "high"; lit "medium"; lit "low"; lit "info"]
  end.

End Cli.

(** * Properties *)

(** ** The decoder terminates within its fuel *)
Module JsonFacts.
Import Json.

Lemma skip_ws_length s p : length (skip_ws s p).1 <= length s.
Proof.
  revert p. induction s as [|c s IH]; intros p; simpl; [lia|].
  destruct (is_ws c); simpl; [|lia]. specialize (IH (S p)). lia.
Qed.

Lemma skip_ws_shorter s p s' p' :
  skip_ws s p = (s', p') -> length s' <= length s.
Proof. intros H. pose proof (skip_ws_length s p) as L. by rewrite H in L. Qed.

Lemma span_digits_length s ds r :
  span_digits s = (ds, r) -> length s = length ds + length r.
Proof.
  revert ds r. induction s as [|c s IH]; intros ds r; simpl.
  - by intros [= <- <-].
  - destruct (is_digit c).
    + destruct (span_digits s) as [ds' r'] eqn:E. intros [= <- <-].
      simpl. by rewrite (IH _ _ eq_refl).
    + by intros [= <- <-].
Qed.

Lemma scanstring_shorter s : forall pos b k acc v r p,
  scanstring s pos b k acc = Done v r p -> length r < length s.
Proof.
  induction s as [|c s IH]; intros pos b k acc v r p; simpl; [done|].
  destruct k as [|k].
  - repeat case_match; try done.
    + intros [= <- <- <-]. lia.
    + intros H'. apply IH in H'. lia.
    + intros H'. apply IH in H'. lia.
  - intros H'. apply IH in H'. lia.
Qed.

Lemma scanstring_result s : forall pos b k acc,
  scanstring s pos b k acc <> Exhausted /\
  (forall p, scanstring s pos b k acc <> Stop p).
Proof.
  induction s as [|c s IH]; intros pos b k acc; simpl; [done|].
  destruct k as [|k]; [|apply IH].
  repeat case_match; try done; apply IH.
Qed.

Lemma match_number_shorter s pos v r p :
  match_number s pos = Done v r p -> length r < length s.
Proof.
  unfold match_number. intros H.
  repeat (case_match; simplify_eq/=);
    repeat match goal with
      | H : span_digits _ = _ |- _ => apply span_digits_length in H; simpl in H
      end; simpl in *; lia.
Qed.

Lemma match_number_result s pos : match_number s pos <> Exhausted.
Proof. unfold match_number. repeat (case_match; simplify_eq/=); done. Qed.

Lemma match_constant_shorter name v s pos x :
  name <> [] -> match_constant name v s pos = Some x ->
  exists r p, x = Done v r p /\ length r < length s.
Proof.
  unfold match_constant. intros Hn. case_match eqn:E; [|done].
  intros [= <-]. eexists _, _. split; [done|].
  rewrite length_skipn. destruct name as [|a name]; [done|].
  destruct s as [|b s]; [done|]. simpl. lia.
Qed.

Ltac lengths :=
  repeat match goal with
    | H : skip_ws _ _ = (_, _) |- _ => apply skip_ws_shorter in H
    | H : scanstring _ _ _ _ _ = Done _ _ _ |- _ => apply scanstring_shorter in H
    | H : match_number _ _ = Done _ _ _ |- _ => apply match_number_shorter in H
    | H : match_constant _ _ _ _ = Some _ |- _ =>
        apply match_constant_shorter in H;
        [destruct H as (? & ? & -> & H) | discriminate]
    | H : scanstring _ _ _ _ _ = Exhausted |- _ =>
        exfalso; exact (proj1 (scanstring_result _ _ _ _ _) H)
    | H : scanstring _ _ _ _ _ = Stop _ |- _ =>
        exfalso; exact (proj2 (scanstring_result _ _ _ _ _) _ H)
    end.

Definition fuel_ok (n : nat) : Prop :=
  (forall s pos, 2 * length s < n ->
     scan_once n s pos <> Exhausted /\
     forall v r p, scan_once n s pos = Done v r p -> length r < length s) /\
  (forall s pos d, 2 * length s + 1 < n ->
     object_loop n s pos d <> Exhausted /\
     forall v r p, object_loop n s pos d = Done v r p -> length r < length s) /\
  (forall s pos l, 2 * length s + 1 < n ->
     array_loop n s pos l <> Exhausted /\
     forall v r p, array_loop n s pos l = Done v r p -> length r < length s).

Ltac fuel_step IHs IHo IHa :=
  simpl; repeat case_match; simplify_eq/=; try done; lengths;
  try done; simpl in *;
  repeat match goal with
    | H : scan_once _ _ _ = Done _ _ _ |- _ => apply IHs in H; [|simpl in *; lia]
    | H : scan_once _ _ _ = Exhausted |- _ =>
        exfalso; revert H; apply IHs; simpl in *; lia
    end;
  try (by apply match_number_result);
  try (apply IHs; simpl in *; lia);
  try (apply IHo; simpl in *; lia);
  try (apply IHa; simpl in *; lia).

Ltac fuel_done IHs IHo IHa :=
  simpl; intros v r p;
  repeat case_match; simplify_eq/=; try done; lengths; simpl in *;
  repeat match goal with
    | H : scan_once _ _ _ = Done _ _ _ |- _ => apply IHs in H; [|simpl in *; lia]
    end;
  try (intros; simplify_eq; lia);
  try (intros Hd; apply IHo in Hd; simpl in *; lia);
  try (intros Hd; apply IHa in Hd; simpl in *; lia);
  try (intros Hd; apply match_number_shorter in Hd; simpl in *; lia).

Lemma fuel_ok_all n : fuel_ok n.
Proof.
  induction n as [|n (IHs & IHo & IHa)].
  { repeat split; intros; simpl in *; try lia; done. }
  split; [|split].
  - intros s pos H. split.
    + fuel_step IHs IHo IHa.
    + fuel_done IHs IHo IHa.
  - intros s pos d H. split.
    + fuel_step IHs IHo IHa.
    + fuel_done IHs IHo IHa.
  - intros s pos l H. split.
    + fuel_step IHs IHo IHa.
    + fuel_done IHs IHo IHa.
Qed.

(** [json.loads] never runs out of fuel. *)
Lemma loads_fuel s s0 p0 :
  skip_ws s 0 = (s0, p0) -> scan_once (fuel_for s) s0 p0 <> Exhausted.
Proof.
  intros H. apply skip_ws_shorter in H.
  apply (fuel_ok_all (fuel_for s)). unfold fuel_for. lia.
Qed.
End JsonFacts.

(** ** Searching, slicing and stripping *)
Module StrFacts.
Import Str.

Lemma startswith_app p q s :
  startswith (p ++ q) s = true -> startswith p s = true.
Proof.
  revert s. induction p as [|a p IH]; intros [|b s]; simpl; try done.
  intros [-> H]%andb_prop. simpl. by apply IH.
Qed.

Lemma startswith_prefix p t : startswith p (p ++ t) = true.
Proof. induction p as [|a p IH]; simpl; [done|]. by rewrite N.eqb_refl. Qed.

Lemma find_at_none_shift sub s i j :
  find_at sub s i = None -> find_at sub s j = None.
Proof.
  revert i j. induction s as [|c s IH]; intros i j; simpl;
    destruct (startswith sub _); try done. apply IH.
Qed.

Lemma find_at_shift sub s i k :
  find_at sub s i = Some k -> forall j, find_at sub s j = Some (k - i + j).
Proof.
  revert i k. induction s as [|c s IH]; intros i k; simpl;
    destruct (startswith sub _); try done.
  - intros [= <-] j. f_equal. lia.
  - intros [= <-] j. f_equal. lia.
  - intros H j. rewrite (IH _ _ H (S j)). f_equal.
    assert (S i <= k); [|lia]. clear -H. revert i k H.
    induction s as [|c s IH]; intros i k; simpl;
      destruct (startswith sub _); try done.
    + intros [= <-]. lia.
    + intros [= <-]. lia.
    + intros H%IH. lia.
Qed.

Lemma contains_cons sub c s :
  contains sub (c :: s) = false ->
  startswith sub (c :: s) = false /\ contains sub s = false.
Proof.
  unfold contains. simpl. destruct (startswith sub (c :: s)); [done|].
  intros H. split; [done|].
  destruct (find_at sub s 1) eqn:E; [done|].
  by rewrite (find_at_none_shift _ _ _ 0 E).
Qed.

Lemma contains_app_false p q s :
  contains p s = false -> contains (p ++ q) s = false.
Proof.
  unfold contains. generalize 0. induction s as [|c s IH]; intros i; simpl.
  - destruct (startswith p []) eqn:E; [done|].
    destruct (startswith (p ++ q) []) eqn:E'; [|done].
    apply startswith_app in E'. congruence.
  - destruct (startswith p (c :: s)) eqn:E; [done|].
    destruct (startswith (p ++ q) (c :: s)) eqn:E'.
    { apply startswith_app in E'. congruence. }
    apply IH.
Qed.

(** Finding a single character. *)
Lemma find_at_char_absent c s i : c ∉ s -> find_at [c] s i = None.
Proof.
  revert i. induction s as [|x s IH]; intros i H; simpl; [done|].
  apply not_elem_of_cons in H as [Hx Hs].
  destruct (N.eqb_spec c x); [done|]. simpl. by apply IH.
Qed.

Lemma find_at_char_first c before after i :
  c ∉ before -> find_at [c] (before ++ c :: after) i = Some (i + length before).
Proof.
  revert i. induction before as [|x before IH]; intros i H; simpl.
  - rewrite N.eqb_refl. simpl. f_equal. lia.
  - apply not_elem_of_cons in H as [Hx Hs].
    destruct (N.eqb_spec c x); [done|]. simpl. rewrite IH; [|done].
    f_equal. lia.
Qed.

Lemma first_occurrence (c : N) (s : list N) :
  c ∉ s \/ exists before after, s = before ++ c :: after /\ c ∉ before.
Proof.
  induction s as [|x s [IH|(b & a & -> & IH)]].
  - left. apply not_elem_of_nil.
  - destruct (decide (c = x)) as [->|Hne].
    + right. exists [], s. split; [done|]. apply not_elem_of_nil.
    + left. by apply not_elem_of_cons.
  - destruct (decide (c = x)) as [->|Hne].
    + right. exists [], (b ++ x :: a). split; [done|]. apply not_elem_of_nil.
    + right. exists (x :: b), a. split; [done|]. by apply not_elem_of_cons.
Qed.

Lemma find_char_absent c s : c ∉ s -> find s [c] 0 = (-1)%Z.
Proof.
  intros H. unfold find. cbn [Z.ltb Z.compare Z.to_nat skipn].
  replace (Z.of_nat (length s) <? 0)%Z with false
    by (symmetry; apply Z.ltb_ge; lia).
  change (Z.to_nat 0) with 0. by rewrite drop_0, find_at_char_absent.
Qed.

Lemma find_char_first c before after :
  c ∉ before ->
  find (before ++ c :: after) [c] 0 = Z.of_nat (length before).
Proof.
  intros H. unfold find. cbn [Z.ltb Z.compare Z.to_nat skipn].
  replace (Z.of_nat (length (before ++ c :: after)) <? 0)%Z with false
    by (symmetry; apply Z.ltb_ge; lia).
  change (Z.to_nat 0) with 0. rewrite drop_0, find_at_char_first; [lia|done].
Qed.

Lemma slice_from_nat {A} (s : list A) k :
  k <= length s -> slice_from s (Z.of_nat k) = skipn k s.
Proof.
  intros H. unfold slice_from, adjust_index.
  replace (Z.of_nat k <? 0)%Z with false by (symmetry; apply Z.ltb_ge; lia).
  f_equal. lia.
Qed.

Lemma slice_nat {A} (s : list A) a b :
  a <= b -> b <= length s ->
  slice s (Z.of_nat a) (Z.of_nat b) = firstn (b - a) (skipn a s).
Proof.
  intros H1 H2. unfold slice, adjust_index.
  replace (Z.of_nat a <? 0)%Z with false by (symmetry; apply Z.ltb_ge; lia).
  replace (Z.of_nat b <? 0)%Z with false by (symmetry; apply Z.ltb_ge; lia).
  f_equal; [|f_equal]; lia.
Qed.

(** White space and [strip]. *)
Lemma lstrip_split s :
  exists w, s = w ++ lstrip s /\ Forall (fun c => isspace c = true) w.
Proof.
  induction s as [|c s (w & E & F)]; simpl.
  - by exists [].
  - destruct (isspace c) eqn:Hc.
    + exists (c :: w). split; [simpl; by f_equal | by constructor].
    + by exists [].
Qed.

Lemma strip_split s :
  exists w1 w2,
    s = w1 ++ strip s ++ w2
    /\ Forall (fun c => isspace c = true) w1
    /\ Forall (fun c => isspace c = true) w2.
Proof.
  destruct (lstrip_split s) as (w1 & E1 & F1).
  destruct (lstrip_split (rev (lstrip s))) as (w2 & E2 & F2).
  exists w1, (rev w2). repeat split; [|done|by apply Forall_rev].
  unfold strip, rstrip. rewrite <- rev_app_distr, <- E2, rev_involutive.
  exact E1.
Qed.

Lemma lstrip_snoc s c :
  isspace c = false -> lstrip (s ++ [c]) = lstrip s ++ [c].
Proof.
  intros Hc. induction s as [|x s IH]; simpl; [by rewrite Hc|].
  by destruct (isspace x).
Qed.

Lemma rstrip_snoc_space s c : isspace c = true -> rstrip (s ++ [c]) = rstrip s.
Proof. intros Hc. unfold rstrip. rewrite rev_unit. simpl. by rewrite Hc. Qed.

Lemma rstrip_cons_nonspace c s :
  isspace c = false -> rstrip (c :: s) = c :: rstrip s.
Proof.
  intros Hc. unfold rstrip. simpl. rewrite lstrip_snoc; [|done].
  by rewrite rev_unit.
Qed.

Lemma strip_wrap s a b :
  isspace a = true -> isspace b = true -> strip (a :: s ++ [b]) = strip s.
Proof.
  intros Ha Hb. unfold strip. simpl. rewrite Ha. clear Ha a.
  induction s as [|x s IH]; simpl.
  - by rewrite Hb.
  - destruct (isspace x) eqn:Hx; [done|].
    change (x :: s ++ [b]) with ((x :: s) ++ [b]).
    by apply rstrip_snoc_space.
Qed.

Lemma strip_starts s w c rest :
  Forall (fun x => isspace x = true) w -> isspace c = false ->
  s = w ++ c :: rest -> exists rest', strip s = c :: rest'.
Proof.
  intros F Hc ->. unfold strip.
  assert (lstrip (w ++ c :: rest) = c :: rest) as ->.
  { induction F as [|x w Hx F IH]; simpl; [by rewrite Hc|]. by rewrite Hx. }
  rewrite rstrip_cons_nonspace; eauto.
Qed.
End StrFacts.

Module ExtractFacts.
Import Models ReviewService Spec StrFacts.

Lemma match_brace_close s : forall i count e,
  match_brace s i count e
  = match close_at s count with Some n => i + n | None => e end.
Proof.
  induction s as [|c s IH]; intros i count e; simpl; [done|].
  destruct (c =? 123)%N.
  { rewrite IH. destruct (close_at s _); simpl; [lia|done]. }
  destruct (c =? 125)%N.
  { destruct (count - 1 =? 0)%Z; [lia|].
    rewrite IH. destruct (close_at s _); simpl; [lia|done]. }
  rewrite IH. destruct (close_at s _); simpl; [lia|done].
Qed.

Lemma close_at_le s : forall count n, close_at s count = Some n -> n <= length s.
Proof.
  induction s as [|c s IH]; intros count n; simpl; [done|].
  repeat case_match; intros Hn; simplify_eq/=; try lia;
    destruct (close_at s _) eqn:E; simplify_eq/=; apply IH in E; lia.
Qed.

Lemma extract_json_absent s : 123%N ∉ s -> extract_json s = None.
Proof.
  intros H. unfold extract_json.
  change (lit "{") with [123%N]. by rewrite find_char_absent.
Qed.

Lemma extract_json_first before after :
  123%N ∉ before ->
  extract_json (before ++ 123%N :: after)
  = Some (firstn (default 0 (close_at (123%N :: after) 0%Z)) (123%N :: after)).
Proof.
  intros H. unfold extract_json. change (lit "{") with [123%N].
  rewrite find_char_first; [|done].
  replace (Z.of_nat (length before) =? -1)%Z with false
    by (symmetry; apply Z.eqb_neq; lia).
  rewrite Nat2Z.id, slice_from_nat by (rewrite length_app; lia).
  rewrite drop_app_length, match_brace_close.
  destruct (close_at (123%N :: after) 0%Z) as [n|] eqn:E.
  - apply close_at_le in E. simpl in E.
    rewrite slice_nat; [|lia|rewrite length_app; simpl; lia].
    rewrite drop_app_length. f_equal. f_equal. simpl. lia.
  - rewrite slice_nat; [|lia|rewrite length_app; simpl; lia].
    by rewrite Nat.sub_diag.
Qed.

Lemma candidate_absent s : 123%N ∉ s -> candidate s = None.
Proof.
  induction s as [|c s IH]; intros H; simpl; [done|].
  apply not_elem_of_cons in H as [Hc Hs].
  destruct (N.eqb_spec c 123); [done|]. by apply IH.
Qed.

Lemma candidate_first before after :
  123%N ∉ before ->
  candidate (before ++ 123%N :: after)
  = Some (firstn (default 0 (close_at (123%N :: after) 0%Z)) (123%N :: after)).
Proof.
  induction before as [|c s IH]; intros H; [done|].
  apply not_elem_of_cons in H as [Hc Hs]. simpl.
  destruct (N.eqb_spec c 123); [done|]. by apply IH.
Qed.

(** The index arithmetic of lines 219-243 computes [candidate]. *)
Lemma extract_json_candidate s : extract_json s = candidate s.
Proof.
  destruct (first_occurrence 123%N s) as [H|(b & a & -> & H)].
  - by rewrite extract_json_absent, candidate_absent.
  - by rewrite extract_json_first, candidate_first.
Qed.

(** Characters other than braces around a text do not change its
    candidate. *)
Lemma close_at_app s w : Forall no_brace w ->
  forall count, close_at (s ++ w) count
  = match close_at s count with Some n => Some n | None => None end.
Proof.
  intros F. induction s as [|c s IH]; intros count; simpl.
  - induction F as [|x w [H1 H2] F IHw] in count |- *; simpl; [done|].
    destruct (N.eqb_spec x 123); [done|]. destruct (N.eqb_spec x 125); [done|].
    by rewrite IHw.
  - repeat case_match; try done; rewrite IH; by destruct (close_at s _).
Qed.

Lemma candidate_app_left w s :
  Forall no_brace w -> candidate (w ++ s) = candidate s.
Proof.
  induction 1 as [|x w [H1 H2] F IH]; simpl; [done|].
  by destruct (N.eqb_spec x 123).
Qed.

Lemma candidate_app_right s w :
  Forall no_brace w -> candidate (s ++ w) = candidate s.
Proof.
  intros F. induction s as [|c s IH].
  - simpl. rewrite <- (app_nil_r w). rewrite candidate_app_left; done.
  - rewrite <- app_comm_cons. cbn [candidate].
    destruct (c =? 123)%N eqn:Hc; [|done].
    rewrite app_comm_cons, (close_at_app (c :: s) w F).
    destruct (close_at (c :: s) 0) as [n|] eqn:E; cbn [default]; [|done].
    apply close_at_le in E. f_equal. by rewrite take_app_le.
Qed.

Lemma isspace_no_brace c : Str.isspace c = true -> no_brace c.
Proof. intros H. split; intros ->; done. Qed.

Lemma extract_json_strip s : extract_json (Str.strip s) = extract_json s.
Proof.
  rewrite !extract_json_candidate.
  destruct (strip_split s) as (w1 & w2 & E & F1 & F2).
  rewrite E at 2.
  rewrite candidate_app_left, candidate_app_right; [done| |].
  - eapply Forall_impl; [exact F2|]. apply isspace_no_brace.
  - eapply Forall_impl; [exact F1|]. apply isspace_no_brace.
Qed.

(** Truncation: when no non-empty prefix is balanced, the scan never
    closes. *)
Lemma brace_fold_acc s : forall a,
  fold_left (fun n c => if (c =? Json.LBRACE)%N then (n + 1)%Z
                        else if (c =? Json.RBRACE)%N then (n - 1)%Z
                        else n) s a
  = (a + brace_excess s)%Z.
Proof.
  unfold brace_excess. induction s as [|x s IH]; intros a; simpl; [lia|].
  rewrite IH, (IH (if (x =? 123)%N then _ else _)).
  repeat case_match; lia.
Qed.

Lemma brace_excess_cons c s :
  brace_excess (c :: s)
  = ((if (c =? 123)%N then 1 else if (c =? 125)%N then -1 else 0)
     + brace_excess s)%Z.
Proof.
  unfold brace_excess at 1. simpl. rewrite brace_fold_acc.
  repeat case_match; lia.
Qed.

Lemma close_at_never s : forall count,
  (forall k, (count + brace_excess (firstn (S k) s))%Z <> 0%Z) ->
  s <> [] -> close_at s count = None.
Proof.
  induction s as [|c s IH]; intros count H Hne; [done|]. simpl.
  assert (forall d, (forall k,
      (count + brace_excess (firstn (S k) (c :: s)))%Z <> 0%Z) ->
      d = (if (c =? 123)%N then 1 else if (c =? 125)%N then -1 else 0)%Z ->
      close_at s (count + d) = None) as Hrec.
  { intros d Hk ->. destruct s as [|x s']; [done|]. apply IH; [|done].
    intros k. specialize (Hk (S k)).
    rewrite firstn_cons, brace_excess_cons in Hk. lia. }
  pose proof (H 0) as H0. simpl in H0. rewrite brace_excess_cons in H0.
  unfold brace_excess in H0. simpl in H0.
  destruct (c =? 123)%N.
  { by rewrite (Hrec 1%Z H). }
  destruct (c =? 125)%N.
  { replace (count - 1 =? 0)%Z with false by (symmetry; apply Z.eqb_neq; lia).
    replace (count - 1)%Z with (count + -1)%Z by lia.
    by rewrite (Hrec (-1)%Z H). }
  specialize (Hrec 0%Z H eq_refl). rewrite Z.add_0_r in Hrec.
  by rewrite Hrec.
Qed.

Lemma truncated_candidate s : truncated s -> extract_json s = Some [].
Proof.
  intros (b & a & -> & Hb & Hk).
  rewrite extract_json_first; [|done].
  rewrite close_at_never; [done| |done].
  intros k. rewrite Z.add_0_l. apply Hk.
Qed.
End ExtractFacts.

(** ** The parser *)
Module ReviewFacts.
Import Models ReviewService Spec.

Lemma new_ReviewResponse_str fp lang fs s n :
  new_ReviewResponse fp lang fs (JStr s) n
  = Ret (mkReviewResponse fp lang fs s n None).
Proof. reflexivity. Qed.

Lemma loads_and_count_ret json_str data :
  loads_and_count json_str = Ret data ->
  exists d, data = JObj d /\ Json.loads json_str = Ret (JObj d).
Proof.
  unfold loads_and_count. destruct (Json.loads json_str) as [v|e]; [|done].
  destruct v; try done. cbn.
  destruct (py_len _); simpl; [|done]. intros [= <-]. eauto.
Qed.

Lemma loads_and_count_decode_error json_str msg doc pos :
  loads_and_count json_str = Raise (JSONDecodeError msg doc pos) ->
  Json.loads json_str = Raise (JSONDecodeError msg doc pos).
Proof.
  unfold loads_and_count. destruct (Json.loads json_str) as [v|e]; [|done].
  destruct v; try done. cbn.
  destruct (dict_get pairs (lit "findings")) as [[]|]; cbn; discriminate.
Qed.

Lemma build_response_ret d fp lang r :
  build_response (JObj d) fp lang = Ret r ->
  exists items summary_,
    py_iter (default (JArr []) (dict_get d (lit "findings"))) = Ret items
    /\ default (JStr (lit "Review complete")) (dict_get d (lit "summary"))
       = JStr summary_
    /\ r = mkReviewResponse fp lang (collect_findings items []) summary_
             (Z.of_nat (length (collect_findings items []))) None.
Proof.
  unfold build_response. cbn [py_get mbind res_bind].
  change (match dict_get d (lit "findings") with Some x => x | None => JArr [] end)
    with (default (JArr []) (dict_get d (lit "findings"))).
  change (match dict_get d (lit "summary") with
          | Some x => x | None => JStr (lit "Review complete") end)
    with (default (JStr (lit "Review complete")) (dict_get d (lit "summary"))).
  destruct (py_iter _) as [items|e]; [|done].
  destruct (default (JStr (lit "Review complete")) _) as [| | | |su| |] eqn:E;
    try done.
  intros [= <-]. by exists items, su.
Qed.

(** Every call returns, and what it returns is one of the four outcomes. *)
Lemma parse_llm_response_outcome response fp lang :
  exists r, parse_llm_response response fp lang = Ret r
            /\ parse_outcome response fp lang r.
Proof.
  unfold parse_llm_response, try_except.
  destruct (parse_body response fp lang) as [r|e] eqn:B.
  2:{ eexists. split; [apply new_ReviewResponse_str | constructor]. }
  exists r. split; [done|]. revert B. unfold parse_body.
  destruct (extract_json (strip_code_block response)) as [json_str|] eqn:X.
  2:{ rewrite new_ReviewResponse_str. intros [= <-]. by constructor. }
  destruct (loads_and_count json_str) as [data|e] eqn:L1.
  { apply loads_and_count_ret in L1 as (d & -> & L1). intros B.
    apply build_response_ret in B as (items & su & Hi & Hs & ->).
    eapply Parsed; eauto. }
  destruct e; try done.
  destruct (loads_and_count (aggressive_fixes json_str)) as [data|e] eqn:L2.
  { apply loads_and_count_ret in L2 as (d & -> & L2). intros B.
    apply build_response_ret in B as (items & su & Hi & Hs & ->).
    eapply Parsed; eauto. }
  destruct e; try done.
  apply loads_and_count_decode_error in L2.
  rewrite new_ReviewResponse_str. intros [= <-]. eapply ParseFailed; eauto.
Qed.

Lemma parse_outcome_fields response fp lang r :
  parse_outcome response fp lang r ->
  file_path r = fp /\ language r = lang /\ token_usage r = None
  /\ total_issues r = Z.of_nat (length (findings r)).
Proof. by intros []. Qed.


(** C2. In every response the parser produces, [total_issues] is the
    length of [findings], whatever [total_issues] the model's JSON
    carries. *)
Theorem total_issues_is_length response fp lang r :
  parse_llm_response response fp lang = Ret r ->
  total_issues r = Z.of_nat (length (findings r)).
Proof.
  intros E. destruct (parse_llm_response_outcome response fp lang) as (r' & E' & O).
  rewrite E in E'. injection E' as <-.
  by destruct (parse_outcome_fields _ _ _ _ O) as (? & ? & ? & ?).
Qed.

Lemma total_issues_is_length_witness :
  exists r,
    parse_llm_response
      (jlit "{'findings': [{'severity': 'high'}], 'total_issues': 7}")
      (lit "a.py") (lit "python") = Ret r
    /\ total_issues r = Z.of_nat (length (findings r)).
Proof.
  eexists. split; [vm_compute; reflexivity|].
  apply (total_issues_is_length
           (jlit "{'findings': [{'severity': 'high'}], 'total_issues': 7}")
           (lit "a.py") (lit "python")).
  vm_compute. reflexivity.
Defined.



End ReviewFacts.

(** ** Fenced blocks, truncation and the repair pass *)
Module FenceFacts.
Import Models ReviewService Spec StrFacts ExtractFacts.

Lemma find_nat s sub st :
  st <= length s ->
  Str.find s sub (Z.of_nat st)
  = match Str.find_at sub (skipn st s) 0 with
    | Some i => Z.of_nat (st + i)
    | None => (-1)%Z
    end.
Proof.
  intros H. unfold Str.find.
  replace (Z.of_nat st <? 0)%Z with false by (symmetry; apply Z.ltb_ge; lia).
  replace (Z.of_nat (length s) <? Z.of_nat st)%Z with false
    by (symmetry; apply Z.ltb_ge; lia).
  rewrite Nat2Z.id. destruct (Str.find_at _ _ _); [|done]. lia.
Qed.

Lemma startswith_fence_tail c J t :
  Str.startswith (lit "```") (c :: J) = false ->
  Str.startswith (lit "```") (c :: J ++ 10%N :: t) = false.
Proof.
  change (lit "```") with [96%N; 96%N; 96%N].
  destruct J as [|c1 [|c2 J]]; simpl;
    destruct (96 =? c)%N; simpl; try done;
    try (destruct (96 =? c1)%N; simpl; try done);
    try (destruct (96 =? c2)%N; simpl; try done).

Qed.

Lemma find_closing_fence J : forall i,
  Str.contains (lit "```") J = false ->
  Str.find_at (lit "```") (J ++ 10%N :: lit "```") i = Some (i + length J + 1).
Proof.
  induction J as [|c J IH]; intros i H.
  - simpl. f_equal. lia.
  - apply contains_cons in H as [H1 H2].
    rewrite <- app_comm_cons. cbn [Str.find_at].
    rewrite (startswith_fence_tail _ _ _ H1), IH by done.
    f_equal. simpl. lia.
Qed.

Lemma no_json_fence J : forall i,
  Str.contains (lit "```") J = false ->
  Str.find_at (lit "```json") (J ++ 10%N :: lit "```") i = None.
Proof.
  induction J as [|c J IH]; intros i H; [done|].
  apply contains_cons in H as [H1 H2].
  rewrite <- app_comm_cons. cbn [Str.find_at].
  destruct (Str.startswith (lit "```json") _) eqn:E.
  { change (lit "```json") with (lit "```" ++ lit "json") in E.
    apply startswith_app in E.
    by rewrite (startswith_fence_tail _ _ _ H1) in E. }
  by apply IH.
Qed.

Lemma contains_fence_json J :
  Str.contains (lit "```") J = false -> Str.contains (lit "```json") J = false.
Proof. apply (contains_app_false (lit "```") (lit "json")). Qed.

(** A response with no fence is left as it is. *)
Lemma strip_code_block_plain J :
  Str.contains (lit "```") J = false -> strip_code_block J = J.
Proof.
  intros H. unfold strip_code_block.
  by rewrite (contains_fence_json _ H), H.
Qed.

(** The block between an opening fence [opening] and the closing fence. *)
Lemma fence_block opening J :
  Str.contains (lit "```") J = false ->
  let response := opening ++ 10%N :: J ++ 10%N :: lit "```" in
  let start := Z.of_nat (length opening) in
  let end_ := Str.find response (lit "```") start in
  (end_ >? start)%Z = true
  /\ Str.strip (Str.slice response start end_) = Str.strip J.
Proof.
  intros H response start end_.
  assert (end_ = Z.of_nat (length opening + (length J + 2))) as ->.
  { unfold end_, start, response. rewrite find_nat by (rewrite length_app; lia).
    rewrite drop_app_length. cbn [Str.find_at].
    change (Str.startswith (lit "```") (10%N :: J ++ 10%N :: lit "```"))
      with false.
    rewrite find_closing_fence by done. f_equal. lia. }
  split; [apply Z.gtb_lt; unfold start; lia|].
  unfold start, response.
  rewrite slice_nat; [|lia|rewrite !length_app; simpl; rewrite length_app; simpl; lia].
  rewrite drop_app_length.
  replace (length opening + (length J + 2) - length opening)
    with (length (10%N :: J ++ [10%N])) by (simpl; rewrite length_app; simpl; lia).
  change (10%N :: J ++ 10%N :: lit "```")
    with ((10%N :: J) ++ [10%N] ++ lit "```").
  rewrite app_assoc. rewrite take_app_length.
  change ((10%N :: J) ++ [10%N]) with (10%N :: J ++ [10%N]).
  by apply strip_wrap.
Qed.

(** The text of a JSON object starts, after white space, with an opening
    brace. *)
Lemma skip_ws_split s : forall p s' p',
  Json.skip_ws s p = (s', p') ->
  exists w, s = w ++ s' /\ Forall (fun c => Json.is_ws c = true) w.
Proof.
  induction s as [|c s IH]; intros p s' p'; simpl.
  - intros [= <- <-]. by exists [].
  - destruct (Json.is_ws c) eqn:Hc.
    + intros (w & -> & F)%IH. exists (c :: w). split; [done|by constructor].
    + intros [= <- <-]. by exists [].
Qed.

Lemma array_loop_arr n : forall s p l v r p',
  Json.array_loop n s p l = Json.Done v r p' -> exists l', v = JArr l'.
Proof.
  induction n as [|n IH]; intros s p l v r p'; simpl; [done|].
  repeat case_match; try done.
  - intros [= <- <- <-]. eauto.
  - apply IH.
Qed.

Lemma match_number_value s p v r p' :
  Json.match_number s p = Json.Done v r p' ->
  (exists z, v = JInt z) \/ (exists l, v = JFloat l).
Proof.
  unfold Json.match_number. repeat case_match; try done;
    intros [= <- <- <-]; eauto.
Qed.

Lemma scan_once_object n c s p d r p' :
  Json.scan_once n (c :: s) p = Json.Done (JObj d) r p' -> c = 123%N.
Proof.
  destruct n as [|n]; simpl; [done|].
  destruct (N.eqb_spec c 34).
  { repeat case_match; done. }
  destruct (N.eqb_spec c 123); [done|].
  destruct (N.eqb_spec c 91).
  { repeat case_match; try done; intros H';
      apply array_loop_arr in H' as (? & ?); done. }
  unfold Json.match_constant.
  repeat case_match; simplify_eq; try done.
  intros H'. apply match_number_value in H' as [(? & ?)|(? & ?)]; done.
Qed.

Lemma json_object_text_starts J :
  json_object_text J ->
  exists w rest, J = w ++ 123%N :: rest
                 /\ Forall (fun c => Json.is_ws c = true) w.
Proof.
  intros (d & H). revert H. unfold Json.loads.
  destruct (Str.startswith _ J); [done|].
  destruct (Json.skip_ws J 0) as [s0 p0] eqn:E.
  apply skip_ws_split in E as (w & -> & F).
  destruct (Json.scan_once _ s0 p0) as [v r p| | |] eqn:S; try done.
  destruct (Json.skip_ws r p) as [s2 p2]. destruct s2; [|done].
  intros [= ->]. destruct s0 as [|c s0].
  { by destruct (Json.fuel_for _). }
  apply scan_once_object in S as ->. eauto.
Qed.

Lemma is_ws_isspace c : Json.is_ws c = true -> Str.isspace c = true.
Proof.
  unfold Json.is_ws. intros H.
  repeat match type of H with
    | (_ || _ )%bool = true => apply orb_prop in H as [H|H]
    end; apply N.eqb_eq in H; by subst.
Qed.

Lemma json_object_text_strip J :
  json_object_text J -> Str.startswith (lit "json") (Str.strip J) = false.
Proof.
  intros (w & rest & E & F)%json_object_text_starts.
  destruct (strip_starts J w 123%N rest) as (rest' & ->); try done.
  eapply Forall_impl; [exact F|]. apply is_ws_isspace.
Qed.

Lemma strip_code_block_fenced_json J :
  Str.contains (lit "```") J = false ->
  strip_code_block (fenced (lit "json") J) = Str.strip J.
Proof.
  intros H. unfold strip_code_block.
  change (fenced (lit "json") J)
    with (lit "```json" ++ 10%N :: J ++ 10%N :: lit "```").
  assert (Str.find_at (lit "```json")
            (lit "```json" ++ 10%N :: J ++ 10%N :: lit "```") 0 = Some 0) as F0.
  { done. }
  unfold Str.contains at 1. rewrite F0.
  rewrite (find_nat _ _ 0) by lia. rewrite drop_0, F0.
  change (Z.of_nat (0 + 0) + 7)%Z with (Z.of_nat (length (lit "```json"))).
  destruct (fence_block (lit "```json") J H) as [-> ->]. done.
Qed.

Lemma strip_code_block_fenced_plain J :
  Str.contains (lit "```") J = false ->
  Str.startswith (lit "json") (Str.strip J) = false ->
  strip_code_block (fenced [] J) = Str.strip J.
Proof.
  intros H HJ. unfold strip_code_block.
  change (fenced [] J) with (lit "```" ++ 10%N :: J ++ 10%N :: lit "```").
  assert (Str.find_at (lit "```json")
            (lit "```" ++ 10%N :: J ++ 10%N :: lit "```") 0 = None) as FJ.
  { change (lit "```" ++ 10%N :: J ++ 10%N :: lit "```")
      with (96%N :: 96%N :: 96%N :: 10%N :: J ++ 10%N :: lit "```").
    do 4 (cbn [Str.find_at];
          match goal with |- context [Str.startswith ?p ?s] =>
            change (Str.startswith p s) with false end; cbv iota).
    by apply no_json_fence. }
  assert (Str.find_at (lit "```")
            (lit "```" ++ 10%N :: J ++ 10%N :: lit "```") 0 = Some 0) as F0.
  { done. }
  unfold Str.contains. rewrite FJ, F0.
  rewrite (find_nat _ _ 0) by lia. rewrite drop_0, F0.
  change (Z.of_nat (0 + 0) + 3)%Z with (Z.of_nat (length (lit "```"))).
  destruct (fence_block (lit "```") J H) as [-> ->]. by rewrite HJ.
Qed.

Lemma parse_llm_response_ext r1 r2 fp lang :
  extract_json (strip_code_block r1) = extract_json (strip_code_block r2) ->
  parse_llm_response r1 fp lang = parse_llm_response r2 fp lang.
Proof.
  intros H. unfold parse_llm_response, parse_body. cbv zeta. by rewrite H.
Qed.
End FenceFacts.

Module RecoveryFacts.
Import Models ReviewService Spec StrFacts ExtractFacts FenceFacts.




(** C3: what the code does on a truncated response.  When the cleaned
    response opens a brace that is never closed, the candidate handed to
    [json.loads] is the empty string, not the text from the brace to the
    end, and the reported error is the decoder's complaint about an empty
    document. *)
Theorem truncated_response_empty_candidate response fp lang :
  truncated (strip_code_block response) ->
  extract_json (strip_code_block response) = Some []
  /\ parse_llm_response response fp lang
     = Ret (mkReviewResponse fp lang []
              (lit "JSON parsing failed: Expecting value: line 1 column 1 (char 0). Response may be truncated.")
              0 None).
Proof.
  intros H%truncated_candidate. split; [done|].
  unfold parse_llm_response, parse_body. cbv zeta. by rewrite H.
Qed.

Lemma truncated_response_empty_candidate_witness :
  extract_json (strip_code_block (jlit "{'findings': [")) = Some []
  /\ parse_llm_response (jlit "{'findings': [") (lit "a.py") (lit "python")
     = Ret (mkReviewResponse (lit "a.py") (lit "python") []
              (lit "JSON parsing failed: Expecting value: line 1 column 1 (char 0). Response may be truncated.")
              0 None).
Proof.
  apply (truncated_response_empty_candidate (jlit "{'findings': [")).
  exists [], (jlit "'findings': [").
  split; [vm_compute; reflexivity|]. split; [apply not_elem_of_nil|].
  intros k. do 16 (destruct k as [|k]; [vm_compute; discriminate|]).
  vm_compute. discriminate.
Defined.

(** "Fix 1" replaces each quotation mark by itself. *)
Lemma replace_same c s : Str.replace c [c] s = s.
Proof.
  unfold Str.replace. induction s as [|x s IH]; simpl; [done|].
  rewrite IH. by destruct (N.eqb_spec x c) as [->|].
Qed.

(** C7: what the code does on typographic quotation marks.  "Fix 1"
    leaves every string as it is, so an object written with typographic
    double quotes still fails to parse after the repair pass, while the
    same object with straight quotes parses. *)
Theorem smart_quotes_not_repaired :
  (forall s, fix_quotes s = s)
  /\ parse_llm_response (clit "{<summary>: <ok>}") (lit "a.py") (lit "python")
     = Ret (mkReviewResponse (lit "a.py") (lit "python") []
              (lit "JSON parsing failed: Expecting property name enclosed in double quotes: line 1 column 2 (char 1). Response may be truncated.")
              0 None)
  /\ parse_llm_response (jlit "{'summary': 'ok'}") (lit "a.py") (lit "python")
     = Ret (mkReviewResponse (lit "a.py") (lit "python") [] (lit "ok") 0 None).
Proof.
  split; [|split; vm_compute; reflexivity].
  intros s. unfold fix_quotes. by rewrite !replace_same.
Qed.
End RecoveryFacts.

(** ** Normalization of findings; fix generation *)
Module FindingFacts.
Import Models ReviewService Spec.

Lemma py_get_obj d k def :
  py_get (JObj d) k def
  = Ret (match dict_get d k with Some x => x | None => def end).
Proof. reflexivity. Qed.

Lemma has_str d k def :
  has d k is_str = true ->
  exists s, validate_str
              (match dict_get d (lit k) with Some x => x | None => JStr def end)
            = Some s.
Proof.
  unfold has. destruct (dict_get d (lit k)) as [[]|]; simpl; try done; eauto.
Qed.

Lemma has_optional {A} (ok : json -> bool) (validate : json -> option A) d k :
  (forall v, ok v = true -> exists a, validate v = Some a) ->
  has d k (is_null_or ok) = true ->
  exists o, validate_optional validate
              (match dict_get d (lit k) with Some x => x | None => JNull end)
            = Some o.
Proof.
  intros Hok. unfold has. destruct (dict_get d (lit k)) as [v|]; [|by eexists].
  destruct v; simpl; try (by eexists);
    intros (a & Ha)%Hok; unfold validate_optional; rewrite Ha; by eexists.
Qed.

Lemma is_str_validates v : is_str v = true -> exists s, validate_str v = Some s.
Proof. destruct v; simpl; try done; eauto. Qed.

Lemma is_int_validates v : is_int v = true -> exists z, validate_int v = Some z.
Proof. destruct v; simpl; try done; eauto. Qed.

Lemma is_dict_validates v : is_dict v = true -> exists d, validate_dict v = Some d.
Proof. destruct v; simpl; try done; eauto. Qed.

Lemma is_str_list_validates v :
  is_str_list v = true -> exists l, validate_list_str v = Some l.
Proof.
  destruct v as [| | | | |l|]; simpl; try done.
  induction l as [|x l IH]; simpl; [eauto|].
  intros [Hx (r & Hr)%IH]%andb_prop. apply is_str_validates in Hx as (s & ->).
  rewrite Hr. eauto.
Qed.

Lemma existsb_find {A} (f : A -> bool) l :
  existsb f l = true -> exists x, List.find f l = Some x.
Proof.
  induction l as [|a l IH]; simpl; [done|].
  destruct (f a); simpl; eauto.
Qed.

Lemma find_existsb {A} (f : A -> bool) l :
  existsb f l = false -> List.find f l = None.
Proof.
  induction l as [|a l IH]; simpl; [done|].
  destruct (f a); simpl; [done|eauto].
Qed.

Lemma has_severity d :
  has d "severity" is_severity = true ->
  exists l, SeverityLevel_of
              (match dict_get d (lit "severity") with
               | Some x => x | None => JStr (lit "info") end) = Ret l.
Proof.
  unfold has. destruct (dict_get d (lit "severity")) as [v|]; [|by eexists].
  destruct v; cbn [is_severity SeverityLevel_of]; try done.
  intros (l & ->)%existsb_find. eauto.
Qed.

(** The construction succeeds on valid fields, with the severity given. *)
Lemma new_Finding_valid d sev :
  valid_fields d = true ->
  exists f,
    new_Finding
      (match dict_get d (lit "line_number") with Some x => x | None => JNull end)
      sev
      (match dict_get d (lit "category") with
       | Some x => x | None => JStr (lit "other") end)
      (match dict_get d (lit "title") with Some x => x | None => JStr [] end)
      (match dict_get d (lit "description") with
       | Some x => x | None => JStr [] end)
      (match dict_get d (lit "suggestion") with
       | Some x => x | None => JStr [] end)
      (match dict_get d (lit "code_snippet") with Some x => x | None => JNull end)
      (match dict_get d (lit "fix_code") with Some x => x | None => JNull end)
      (match dict_get d (lit "documentation_link") with
       | Some x => x | None => JNull end)
      (match dict_get d (lit "severity_reason") with
       | Some x => x | None => JNull end)
      (match dict_get d (lit "examples") with Some x => x | None => JNull end)
      (match dict_get d (lit "best_practice") with
       | Some x => x | None => JNull end)
      (match dict_get d (lit "effort_minutes") with
       | Some x => x | None => JNull end)
      (match dict_get d (lit "dimensions") with Some x => x | None => JNull end)
    = Ret f
    /\ severity f = sev.
Proof.
  unfold valid_fields. intros H.
  repeat match type of H with
    | (_ && _)%bool = true => let H' := fresh "V" in apply andb_prop in H as [H H']
    end.
  apply (has_optional _ validate_int _ _ is_int_validates) in H as (ln & Hln).
  apply (has_str _ _ (lit "other")) in V10 as (ca & Hca).
  apply (has_str _ _ []) in V9 as (ti & Hti).
  apply (has_str _ _ []) in V8 as (de & Hde).
  apply (has_str _ _ []) in V7 as (su & Hsu).
  apply (has_optional _ validate_str _ _ is_str_validates) in V6 as (cs & Hcs).
  apply (has_optional _ validate_str _ _ is_str_validates) in V5 as (fc & Hfc).
  apply (has_optional _ validate_str _ _ is_str_validates) in V4 as (dl & Hdl).
  apply (has_optional _ validate_str _ _ is_str_validates) in V3 as (sr & Hsr).
  apply (has_optional _ validate_list_str _ _ is_str_list_validates) in V2
    as (ex & Hex).
  apply (has_optional _ validate_str _ _ is_str_validates) in V1 as (bp & Hbp).
  apply (has_optional _ validate_int _ _ is_int_validates) in V0 as (em & Hem).
  apply (has_optional _ validate_dict _ _ is_dict_validates) in V as (di & Hdi).
  unfold new_Finding.
  rewrite Hln, Hca, Hti, Hde, Hsu, Hcs, Hfc, Hdl, Hsr, Hex, Hbp, Hem, Hdi.
  eexists. split; reflexivity.
Qed.

Lemma make_finding_obj d :
  make_finding (JObj d)
  = SeverityLevel_of
      (match dict_get d (lit "severity") with
       | Some x => x | None => JStr (lit "info") end)
    ≫= fun sev =>
    new_Finding
      (match dict_get d (lit "line_number") with Some x => x | None => JNull end)
      sev
      (match dict_get d (lit "category") with
       | Some x => x | None => JStr (lit "other") end)
      (match dict_get d (lit "title") with Some x => x | None => JStr [] end)
      (match dict_get d (lit "description") with
       | Some x => x | None => JStr [] end)
      (match dict_get d (lit "suggestion") with
       | Some x => x | None => JStr [] end)
      (match dict_get d (lit "code_snippet") with Some x => x | None => JNull end)
      (match dict_get d (lit "fix_code") with Some x => x | None => JNull end)
      (match dict_get d (lit "documentation_link") with
       | Some x => x | None => JNull end)
      (match dict_get d (lit "severity_reason") with
       | Some x => x | None => JNull end)
      (match dict_get d (lit "examples") with Some x => x | None => JNull end)
      (match dict_get d (lit "best_practice") with
       | Some x => x | None => JNull end)
      (match dict_get d (lit "effort_minutes") with
       | Some x => x | None => JNull end)
      (match dict_get d (lit "dimensions") with Some x => x | None => JNull end).
Proof.
  unfold make_finding. rewrite !py_get_obj. cbn [mbind res_bind].
  by destruct (SeverityLevel_of _).
Qed.

(** A valid record is built. *)
Lemma make_finding_valid f :
  valid_record f = true -> exists finding, make_finding f = Ret finding.
Proof.
  destruct f as [| | | | | |d]; try done. simpl.
  intros [(l & Hl)%has_severity Hv]%andb_prop.
  rewrite make_finding_obj, Hl. cbn [mbind res_bind].
  destruct (new_Finding_valid d l Hv) as (f & Hf & _). eauto.
Qed.

(** A record with a severity outside the enumeration is not. *)
Lemma make_finding_invalid_severity f :
  invalid_severity f -> exists e, make_finding f = Raise e.
Proof.
  intros (d & s & -> & Hs & Hb). rewrite make_finding_obj, Hs.
  cbn [is_severity] in Hb. cbn [SeverityLevel_of].
  rewrite (find_existsb _ _ Hb). cbn [mbind res_bind]. eauto.
Qed.

Lemma collect_findings_acc items : forall acc,
  collect_findings items acc = acc ++ collect_findings items [].
Proof.
  induction items as [|f items IH]; intros acc; simpl.
  - by rewrite app_nil_r.
  - destruct (make_finding f) as [x|e]; [|done].
    rewrite IH, (IH [x]). by rewrite app_assoc.
Qed.

Lemma collect_findings_valid items :
  Forall (fun f => valid_record f = true) items ->
  Forall2 (fun raw f => make_finding raw = Ret f) items
    (collect_findings items []).
Proof.
  induction 1 as [|f items Hf F IH]; simpl; [constructor|].
  apply make_finding_valid in Hf as (x & Hx). rewrite Hx.
  rewrite collect_findings_acc. simpl. by constructor.
Qed.

Lemma collect_findings_app xs ys :
  collect_findings (xs ++ ys) []
  = collect_findings xs [] ++ collect_findings ys [].
Proof.
  induction xs as [|f xs IH]; simpl; [done|].
  destruct (make_finding f) as [x|e]; [|done].
  rewrite collect_findings_acc, (collect_findings_acc xs [x]), IH.
  by rewrite app_assoc.
Qed.





End FindingFacts.

Module FixFacts.
Import Models FixService Spec.

Section Service.
Variable World : Type.
Variable client_generate :
  list N -> list N -> list N -> World -> res GenerateReply * World.
Variable model_name : list N.

(** What [generate_review] returns is a dict, with neither a key made of
    backticks nor a [strip] method. *)
Lemma extract_code_of_review language_ prompt system_prompt w :
  extract_code language_
    (OllamaService.generate_review World client_generate model_name
       prompt system_prompt w).1
  = Raise (AttributeError (lit "'dict' object has no attribute 'strip'")).
Proof.
  unfold OllamaService.generate_review.
  destruct (client_generate _ _ _ _) as [[reply|e] w']; reflexivity.
Qed.

Lemma generate_fix_none language_ code_snippet_ finding w :
  (generate_fix World client_generate model_name language_ code_snippet_
     finding w).1 = Ret None.
Proof.
  unfold generate_fix. destruct code_snippet_ as [|c s]; [done|].
  match goal with
  | |- context [OllamaService.generate_review ?W ?c ?m ?p ?s ?w] =>
      pose proof (extract_code_of_review language_ p s w) as E;
      destruct (OllamaService.generate_review W c m p s w) as [response w']
  end.
  simpl in *. by rewrite E.
Qed.

(** C5: what the code does.  [generate_fix] returns [None] on every
    input and for every answer of the gateway, raising nothing: the
    value it searches for a fenced block is the dict returned by
    [generate_review], which has no such key and no [strip]. *)
Theorem generate_fix_always_none language_ code_snippet_ finding w :
  exists w',
    generate_fix World client_generate model_name language_ code_snippet_
      finding w = (Ret None, w').
Proof.
  pose proof (generate_fix_none language_ code_snippet_ finding w) as H.
  destruct (generate_fix _ _ _ _ _ _ _) as [r w']. simpl in H. subst.
  by exists w'.
Qed.

Lemma same_except_fix_code_refl f : same_except_fix_code f f.
Proof. by repeat split. Qed.

Lemma same_except_fix_code_set f f' fix_ :
  same_except_fix_code f f' -> same_except_fix_code f (set_fix_code f' fix_).
Proof. by destruct f'. Qed.

Lemma frame_refl h : frame h h.
Proof.
  intros a. destruct (h !! a); constructor. apply same_except_fix_code_refl.
Qed.

Lemma frame_update h h' a f' fix_ :
  frame h h' -> h' !! a = Some f' ->
  frame h (<[a := set_fix_code f' fix_]> h').
Proof.
  intros F Ha b. destruct (decide (a = b)) as [<-|Hne].
  - rewrite lookup_insert_eq. specialize (F a). rewrite Ha in F.
    inversion F; subst. constructor. by apply same_except_fix_code_set.
  - rewrite lookup_insert_ne by done. apply F.
Qed.

Lemma fix_each_frame language_ lines findings_ : forall w h0 h,
  frame h0 h ->
  let '(r, _, h') :=
    fix_each World client_generate model_name language_ lines findings_ w h in
  r = Ret tt /\ frame h0 h'.
Proof.
  induction findings_ as [|a rest IH]; intros w h0 h F; simpl; [done|].
  destruct (h !! a) as [finding|] eqn:Ha; [|by apply IH].
  destruct (on_a_line finding lines) as [n|]; [|by apply IH].
  match goal with
  | |- context [generate_fix ?W ?c ?m ?l ?s ?f ?w] =>
      pose proof (generate_fix_none l s f w) as E;
      destruct (generate_fix W c m l s f w) as [r w']
  end.
  simpl in E. subst r. apply IH. by apply frame_update.
Qed.

(** C9. Batch fix generation returns the list it was given and changes
    no field of any finding other than [fix_code]: every finding of the
    store is still there, equal to what it was outside [fix_code], and no
    finding is added. *)
Theorem fix_generation_frame code_content language_ findings_ w h :
  let '(r, _, h') :=
    generate_fixes_for_findings World client_generate model_name
      code_content language_ findings_ w h in
  r = Ret findings_
  /\ (forall a f, h !! a = Some f ->
        exists f', h' !! a = Some f' /\ same_except_fix_code f f')
  /\ (forall a, h !! a = None -> h' !! a = None).
Proof.
  unfold generate_fixes_for_findings.
  pose proof (fix_each_frame language_ (Str.split code_content [10%N])
                findings_ w h h (frame_refl h)) as H.
  destruct (fix_each _ _ _ _ _ _ _ _) as [[r w'] h'].
  destruct H as [-> F]. split; [done|]. split.
  - intros a f Ha. specialize (F a). rewrite Ha in F.
    inversion F; subst. eauto.
  - intros a Ha. specialize (F a). rewrite Ha in F. by inversion F.
Qed.
End Service.

(** C5 at a concrete answer of the gateway: the reply carries a fenced
    block, fence stripping applied to its text yields the code, and
    [generate_fix] returns [None]. *)
Example generate_fix_discards_reply :
  let reply := lit "```python" ++ [10%N] ++ lit "x = 1" ++ [10%N] ++ lit "```" in
  let client := fun (_ _ _ : list N) (w : unit) =>
                  (Ret (mkReply (Some reply) (Some 5%Z) (Some 7%Z)), w) in
  extract_code (lit "python") (JStr reply) = Ret (lit "x = 1")
  /\ generate_fix unit client (lit "mistral") (lit "python") (lit "x=1")
       (mkFinding (Some 1%Z) MEDIUM (lit "style") (lit "t") (lit "d") (lit "s")
          None None None None None None None None) tt
     = (Ret None, tt).
Proof. split; vm_compute; reflexivity. Qed.
End FixFacts.

(** ** Worked examples *)
Module Examples.
Import Models ReviewService FixService Spec.

(** A response with prose around a fenced block yields its one finding. *)
Example end_to_end :
  exists f,
    parse_llm_response
      (lit "Here is my review:" ++ [10%N]
         ++ fenced (lit "json")
              (jlit "{'findings':[{'line_number':3,'severity':'medium','category':'style','title':'Shadowed builtin','description':'Parameter named list shadows builtin','suggestion':'Rename to items'}],'summary':'One style issue found'}"))
      (lit "a.py") (lit "python")
    = Ret (mkReviewResponse (lit "a.py") (lit "python") [f]
             (lit "One style issue found") 1 None)
    /\ severity f = MEDIUM /\ category f = lit "style"
    /\ line_number f = Some 3%Z /\ title f = lit "Shadowed builtin".
Proof. eexists. repeat split; vm_compute; reflexivity. Qed.

(** A response with no brace yields the diagnostic for a missing object. *)
Example end_to_end_failure :
  parse_llm_response (lit "I couldn't analyze this code.")
    (lit "a.py") (lit "python")
  = Ret (mkReviewResponse (lit "a.py") (lit "python") []
           (lit "Could not find JSON in response") 0 None).
Proof. vm_compute. reflexivity. Qed.

(** Batch fix generation on a store of two findings: the one on a line of
    the code has its [fix_code] overwritten, its other fields and the other
    finding are as before. *)
Example fix_generation_on_a_store :
  let on_line :=
    mkFinding (Some 1%Z) HIGH (lit "style") (lit "t") (lit "d") (lit "s")
      None (Some (lit "old fix")) None None None None None None in
  let off_line :=
    mkFinding None LOW (lit "other") (lit "u") (lit "e") (lit "r")
      None (Some (lit "kept")) None None None None None None in
  let client := fun (_ _ _ : list N) (w : unit) =>
                  (Ret (mkReply (Some (lit "x = 1")) None None), w) in
  let h : gmap nat Finding := <[0 := on_line]> (<[1 := off_line]> ∅) in
  let '(r, _, h') :=
    generate_fixes_for_findings unit client (lit "mistral")
      (lit "x=1") (lit "python") [0; 1] tt h in
  r = Ret [0; 1]
  /\ h' !! 0 = Some (set_fix_code on_line None)
  /\ h' !! 1 = Some off_line.
Proof. vm_compute. repeat split; reflexivity. Qed.

End Examples.

(** ** Further properties of the pipeline *)

Module PipelineFacts.
Import Models ReviewService Spec StrFacts ExtractFacts FenceFacts.



Lemma close_at_last s : forall count n,
  close_at s count = Some n ->
  exists body, firstn n s = body ++ [125%N]
               /\ (count + brace_excess (firstn n s))%Z = 0%Z.
Proof.
  induction s as [|c s IH]; intros count n; simpl; [done|].
  destruct (N.eqb_spec c 123) as [->|H1].
  { destruct (close_at s (count + 1)) as [m|] eqn:E; [|done].
    intros [= <-]. destruct (IH _ _ E) as (body & Hb & Hx).
    exists (123%N :: body). rewrite firstn_cons, Hb. split; [done|].
    rewrite <- Hb, brace_excess_cons. simpl. lia. }
  destruct (N.eqb_spec c 125) as [->|H2].
  { destruct (Z.eqb_spec (count - 1) 0) as [H0|H0].
    - intros [= <-]. exists []. split; [done|].
      simpl. unfold brace_excess. simpl. lia.
    - destruct (close_at s (count - 1)) as [m|] eqn:E; [|done].
      intros [= <-]. destruct (IH _ _ E) as (body & Hb & Hx).
      exists (125%N :: body). rewrite firstn_cons, Hb. split; [done|].
      rewrite <- Hb, brace_excess_cons. simpl. lia. }
  destruct (close_at s count) as [m|] eqn:E; [|done].
  intros [= <-]. destruct (IH _ _ E) as (body & Hb & Hx).
  exists (c :: body). rewrite firstn_cons, Hb. split; [done|].
  rewrite <- Hb, brace_excess_cons.
  destruct (N.eqb_spec c 123); [done|]. destruct (N.eqb_spec c 125); [done|]. lia.
Qed.

(** X2. A non-empty candidate is a piece of the text that starts at its
    first opening brace, ends with a closing brace and has as many opening
    as closing braces. *)
Theorem candidate_is_balanced s c :
  extract_json s = Some c -> c <> [] ->
  exists before body after,
    s = before ++ c ++ after
    /\ (123%N ∉ before)
    /\ c = 123%N :: body ++ [125%N]
    /\ brace_excess c = 0%Z.
Proof.
  intros H Hc. destruct (first_occurrence 123%N s) as [Ha|(b & a & -> & Hb)].
  { rewrite (extract_json_absent _ Ha) in H. discriminate. }
  rewrite extract_json_first in H by done.
  destruct (close_at (123%N :: a) 0) as [n|] eqn:E; cbn [default] in H;
    injection H as <-; [|done].
  destruct (close_at_last _ _ _ E) as (body & Hbody & Hx).
  exists b, (tl body), (skipn n (123%N :: a)).
  rewrite take_drop. repeat split; try done.
  destruct n as [|m]; [by destruct body|]. rewrite firstn_cons in Hbody |- *.
  destruct body as [|x body]; [discriminate|].
  simpl in Hbody. injection Hbody as <- ->. done.
Qed.

Lemma candidate_is_balanced_witness :
  exists before body after,
    lit "Sure: {'a': {}} done" = before ++ lit "{'a': {}}" ++ after
    /\ (123%N ∉ before)
    /\ lit "{'a': {}}" = 123%N :: body ++ [125%N]
    /\ brace_excess (lit "{'a': {}}") = 0%Z.
Proof.
  apply (candidate_is_balanced (lit "Sure: {'a': {}} done") (lit "{'a': {}}"));
    vm_compute; [reflexivity | discriminate].
Defined.

Lemma candidate_skip p s : 123%N ∉ p -> candidate (p ++ s) = candidate s.
Proof.
  induction p as [|x p IH]; intros H; [done|].
  apply not_elem_of_cons in H as [Hx Hp]. simpl.
  destruct (N.eqb_spec x 123); [done|]. by apply IH.
Qed.

Lemma close_at_app_some s t : forall count n,
  close_at s count = Some n -> close_at (s ++ t) count = Some n.
Proof.
  induction s as [|c s IH]; intros count n; simpl; [done|].
  repeat case_match; try done;
    destruct (close_at s _) eqn:E; try done; by rewrite (IH _ _ E).
Qed.

Lemma candidate_closed_app s t c :
  candidate s = Some c -> c <> [] -> candidate (s ++ t) = Some c.
Proof.
  intros H Hc. destruct (first_occurrence 123%N s) as [Ha|(b & a & -> & Hb)].
  { rewrite (candidate_absent _ Ha) in H. discriminate. }
  rewrite candidate_first in H by done.
  rewrite <- app_assoc, <- app_comm_cons, candidate_first by done.
  destruct (close_at (123%N :: a) 0) as [n|] eqn:E; cbn [default] in H;
    injection H as <-; [|done].
  rewrite app_comm_cons, (close_at_app_some _ _ _ _ E). cbn [default].
  f_equal. apply take_app_le. by apply close_at_le in E.
Qed.



Lemma find_fence_absent J st :
  Str.contains (lit "```") J = false ->
  Str.find_at (lit "```") (10%N :: J) st = None.
Proof.
  intros H. cbn [Str.find_at].
  change (Str.startswith (lit "```") (10%N :: J)) with false. cbv iota.
  unfold Str.contains in H. destruct (Str.find_at _ J 0) eqn:E; [done|].
  by apply (find_at_none_shift _ _ 0).
Qed.


End PipelineFacts.

Module RecordFacts.
Import Models ReviewService Spec ReviewFacts FindingFacts.

Lemma build_response_obj d fp lang :
  build_response (JObj d) fp lang
  = py_iter (default (JArr []) (dict_get d (lit "findings")))
    ≫= fun items =>
    new_ReviewResponse fp lang (collect_findings items [])
      (default (JStr (lit "Review complete")) (dict_get d (lit "summary")))
      (Z.of_nat (length (collect_findings items []))).
Proof.
  unfold build_response. cbn [py_get mbind res_bind].
  by destruct (dict_get d (lit "findings")), (dict_get d (lit "summary")).
Qed.

Lemma loads_and_count_obj json_str d :
  Json.loads json_str = Ret (JObj d) ->
  loads_and_count json_str
  = py_len (default (JArr []) (dict_get d (lit "findings")))
    ≫= fun _ => Ret (JObj d).
Proof.
  intros H. unfold loads_and_count. rewrite H. cbn [py_get mbind res_bind].
  by destruct (dict_get d (lit "findings")).
Qed.



Lemma default_match_eq {A} (x : A) (o : option A) :
  default x o = match o with Some y => y | None => x end.
Proof. by destruct o. Qed.

Lemma make_finding_non_object f :
  is_dict f = false -> exists e, make_finding f = Raise e.
Proof. destruct f; try discriminate; intros _; eexists; reflexivity. Qed.

Lemma collect_findings_none items :
  Forall (fun f => exists e, make_finding f = Raise e) items ->
  collect_findings items [] = [].
Proof.
  induction 1 as [|f items [e He] _ IH]; [done|]. simpl. by rewrite He.
Qed.

(** X6. Records that are not objects are all passed over: when [findings]
    is a string, a dict, or a list of non-objects, the review has no
    finding and keeps the summary of the model. *)
Theorem non_object_records_dropped d fp lang items su :
  py_iter (default (JArr []) (dict_get d (lit "findings"))) = Ret items ->
  Forall (fun f => is_dict f = false) items ->
  default (JStr (lit "Review complete")) (dict_get d (lit "summary")) = JStr su ->
  build_response (JObj d) fp lang
  = Ret (mkReviewResponse fp lang [] su 0 None).
Proof.
  intros Hi Hf Hs. rewrite build_response_obj, Hi. cbn [mbind res_bind].
  rewrite Hs, collect_findings_none; [done|].
  eapply Forall_impl; [exact Hf|]. intros f. apply make_finding_non_object.
Qed.

Lemma non_object_records_dropped_witness :
  build_response
    (JObj [(lit "findings", JStr (lit "none")); (lit "summary", JStr (lit "ok"))])
    (lit "a.py") (lit "python")
  = Ret (mkReviewResponse (lit "a.py") (lit "python") [] (lit "ok") 0 None).
Proof.
  apply (non_object_records_dropped _ _ _
           [JStr (lit "n"); JStr (lit "o"); JStr (lit "n"); JStr (lit "e")]).
  - vm_compute. reflexivity.
  - repeat constructor.
  - vm_compute. reflexivity.
Defined.

Lemma py_iter_len v items : py_iter v = Ret items -> exists n, py_len v = Ret n.
Proof. destruct v; try discriminate; intros _; eexists; reflexivity. Qed.



Lemma collect_findings_cons f items :
  collect_findings (f :: items) []
  = match make_finding f with
    | Ret x => x :: collect_findings items []
    | Raise _ => collect_findings items []
    end.
Proof.
  simpl. destruct (make_finding f); [|done].
  by rewrite collect_findings_acc.
Qed.

Lemma collect_findings_le items :
  length (collect_findings items []) <= length items.
Proof.
  induction items as [|f items IH]; [done|].
  rewrite collect_findings_cons. destruct (make_finding f); simpl; lia.
Qed.

(** X8. The review never has more findings than the model sent records,
    and it has as many exactly when every record builds a [Finding]. *)
Theorem findings_bounded_by_records items :
  length (collect_findings items []) <= length items
  /\ (length (collect_findings items []) = length items
      <-> Forall (fun f => exists x, make_finding f = Ret x) items).
Proof.
  split; [apply collect_findings_le|].
  induction items as [|f items IH]; [by split|].
  rewrite collect_findings_cons.
  pose proof (collect_findings_le items) as Hle.
  destruct (make_finding f) as [x|e] eqn:E; simpl; split.
  - intros H. constructor; [by eexists|]. apply IH. lia.
  - intros H. apply Forall_cons in H as [_ H]. f_equal. by apply IH.
  - lia.
  - intros H. apply Forall_cons in H as [[x Hx] _]. congruence.
Qed.

Lemma severity_of_inv v l : SeverityLevel_of v = Ret l -> v = JStr (severity_value l).
Proof.
  destruct v as [| | | |s| |]; try discriminate. unfold SeverityLevel_of.
  destruct (List.find _ _) as [l'|] eqn:E; [|discriminate].
  intros [= ->]. apply find_some in E as [_ E].
  unfold Str.eqb in E. apply bool_decide_eq_true in E. by rewrite E.
Qed.

(** X9. The lookup of a severity is exact: a value is accepted as the level
    [l] only when it is the string that is the value of [l], in lower
    case. *)
Theorem severity_lookup_exact v l :
  SeverityLevel_of v = Ret l <-> v = JStr (severity_value l).
Proof.
  split; [apply severity_of_inv|].
  intros ->. by destruct l.
Qed.

Lemma validate_str_inv v s : validate_str v = Some s -> v = JStr s.
Proof. destruct v; try discriminate. by intros [= ->]. Qed.

Lemma validate_dict_inv v d : validate_dict v = Some d -> v = JObj d.
Proof. destruct v; try discriminate. by intros [= ->]. Qed.

Lemma validate_all_str_inv l : forall r,
  validate_all validate_str l = Some r -> l = List.map JStr r.
Proof.
  induction l as [|v l IH]; intros r; simpl; [by intros [= <-]|].
  destruct (validate_str v) as [s|] eqn:E; [|done].
  destruct (validate_all validate_str l) as [r'|]; [|done].
  intros [= <-]. simpl. by rewrite (validate_str_inv _ _ E), (IH r').
Qed.

Lemma validate_list_str_inv v l :
  validate_list_str v = Some l -> v = JArr (List.map JStr l).
Proof.
  destruct v; try discriminate. simpl. intros H.
  by rewrite (validate_all_str_inv _ _ H).
Qed.

Lemma validate_optional_inv {A} (validate : json -> option A) (inj : A -> json)
    (Hinv : forall v a, validate v = Some a -> v = inj a) v o :
  validate_optional validate v = Some o -> v = from_option inj JNull o.
Proof.
  unfold validate_optional.
  destruct v; [by intros [= <-]|..];
    (destruct (validate _) as [a|] eqn:E; [|done]);
    intros [= <-]; simpl; by apply Hinv.
Qed.

Lemma field_inv {A} model name (o : option A) a :
  field model name o = Ret a -> o = Some a.
Proof. destruct o; [by intros [= ->]|done]. Qed.

(** X10. A finding that is built carries the values of its record
    unchanged: the severity, the four text fields with their defaults, and
    the optional texts, examples and dimensions; a line number given as an
    integer is kept as it is. *)
Theorem make_finding_fields d f :
  make_finding (JObj d) = Ret f ->
  JStr (severity_value (severity f))
  = default (JStr (lit "info")) (dict_get d (lit "severity"))
  /\ JStr (category f) = default (JStr (lit "other")) (dict_get d (lit "category"))
  /\ JStr (title f) = default (JStr []) (dict_get d (lit "title"))
  /\ JStr (description f) = default (JStr []) (dict_get d (lit "description"))
  /\ JStr (suggestion f) = default (JStr []) (dict_get d (lit "suggestion"))
  /\ from_option JStr JNull (code_snippet f)
     = default JNull (dict_get d (lit "code_snippet"))
  /\ from_option JStr JNull (fix_code f)
     = default JNull (dict_get d (lit "fix_code"))
  /\ from_option JStr JNull (documentation_link f)
     = default JNull (dict_get d (lit "documentation_link"))
  /\ from_option JStr JNull (severity_reason f)
     = default JNull (dict_get d (lit "severity_reason"))
  /\ from_option JStr JNull (best_practice f)
     = default JNull (dict_get d (lit "best_practice"))
  /\ from_option (fun l => JArr (List.map JStr l)) JNull (examples f)
     = default JNull (dict_get d (lit "examples"))
  /\ from_option JObj JNull (dimensions f)
     = default JNull (dict_get d (lit "dimensions"))
  /\ (forall z, dict_get d (lit "line_number") = Some (JInt z) ->
        line_number f = Some z)
  /\ (forall z, dict_get d (lit "effort_minutes") = Some (JInt z) ->
        effort_minutes f = Some z).
Proof.
  rewrite make_finding_obj.
  destruct (SeverityLevel_of _) as [sev|] eqn:Hsev; [|done].
  cbn [mbind res_bind]. unfold new_Finding. cbv zeta.
  repeat match goal with
  | |- context [field ?m ?n ?o] =>
      let E := fresh "E" in
      destruct (field m n o) as [?x|] eqn:E;
        [|cbn [mbind res_bind]; discriminate];
      apply field_inv in E; cbn [mbind res_bind]
  end.
  intros [= <-]. cbn [severity category title description suggestion
    code_snippet fix_code documentation_link severity_reason best_practice
    examples dimensions line_number effort_minutes].
  rewrite !default_match_eq.
  repeat match goal with |- _ /\ _ => split end;
    try (symmetry; first
           [ by apply severity_of_inv
           | by apply validate_str_inv
           | by apply (validate_optional_inv validate_str JStr validate_str_inv)
           | by apply (validate_optional_inv validate_list_str _
                         validate_list_str_inv)
           | by apply (validate_optional_inv validate_dict JObj
                         validate_dict_inv) ]).
  - intros z Hz. rewrite Hz in E. simpl in E. congruence.
  - intros z Hz. rewrite Hz in E10. simpl in E10. congruence.
Qed.

Lemma make_finding_fields_witness :
  let d := [(lit "title", JStr (lit "Leak")); (lit "line_number", JInt 3)] in
  let f := mkFinding (Some 3%Z) INFO (lit "other") (lit "Leak") [] []
             None None None None None None None None in
  make_finding (JObj d) = Ret f
  /\ JStr (title f) = default (JStr []) (dict_get d (lit "title"))
  /\ line_number f = Some 3%Z.
Proof.
  intros d f.
  assert (make_finding (JObj d) = Ret f) as H by (vm_compute; reflexivity).
  split; [exact H|].
  destruct (make_finding_fields d f H)
    as (_ & _ & Ht & _ & _ & _ & _ & _ & _ & _ & _ & _ & Hl & _).
  split; [exact Ht | apply Hl; vm_compute; reflexivity].
Defined.
End RecordFacts.

Module RepairFacts.
Import Models ReviewService Spec StrFacts ReviewFacts RecoveryFacts.

Lemma startswith_iff p : forall s,
  Str.startswith p s = true <-> exists t, s = p ++ t.
Proof.
  induction p as [|a p IH]; intros s; simpl.
  - split; [by exists s|done].
  - destruct s as [|b s]; [split; [done|by intros [t Ht]]|].
    rewrite andb_true_iff, N.eqb_eq, IH. split.
    + intros [-> [t ->]]. by exists t.
    + intros [t [= -> ->]]. eauto.
Qed.

Lemma find_at_occurrence p a c : forall i,
  Str.find_at p (a ++ p ++ c) i <> None.
Proof.
  induction a as [|x a IH]; intros i.
  - simpl app. destruct (p ++ c) eqn:E; simpl; rewrite <- ?E;
      by rewrite startswith_prefix.
  - simpl. destruct (Str.startswith p _); [done|]. apply IH.
Qed.

Lemma contains_occurrence p a c : Str.contains p (a ++ p ++ c) = true.
Proof.
  unfold Str.contains. pose proof (find_at_occurrence p a c 0).
  by destruct (Str.find_at _ _ _).
Qed.

Lemma find_at_some p s : forall i k,
  Str.find_at p s i = Some k -> exists a c, s = a ++ p ++ c.
Proof.
  induction s as [|x s IH]; intros i k; simpl.
  - destruct (Str.startswith p []) eqn:E; [|done]. intros _.
    apply startswith_iff in E as [t ->]. by exists [], t.
  - destruct (Str.startswith p (x :: s)) eqn:E.
    + intros _. apply startswith_iff in E as [t ->]. by exists [], t.
    + intros H. apply IH in H as (a & c & ->). by exists (x :: a), c.
Qed.

Lemma contains_infix p a b c :
  Str.contains p (a ++ b ++ c) = false -> Str.contains p b = false.
Proof.
  intros H. destruct (Str.contains p b) eqn:E; [|done].
  unfold Str.contains in E. destruct (Str.find_at p b 0) eqn:F; [|done].
  apply find_at_some in F as (a' & c' & ->).
  rewrite <- H. symmetry.
  replace (a ++ (a' ++ p ++ c') ++ c) with ((a ++ a') ++ p ++ (c' ++ c))
    by (by rewrite <- !app_assoc).
  apply contains_occurrence.
Qed.

(** The pieces of a split on one character are pieces of the text, and
    joining them gives the text back. *)
Lemma split_aux_infix c s : forall cur l,
  l ∈ Str.split_aux [c] s 0 cur -> exists a b, rev cur ++ s = a ++ l ++ b.
Proof.
  induction s as [|x s IH]; intros cur l; cbn [Str.split_aux].
  - intros H. apply list_elem_of_singleton in H as ->.
    exists [], []. by rewrite !app_nil_r.
  - cbn [Str.startswith length Nat.sub].
    destruct (N.eqb_spec c x) as [->|Hne]; cbn [andb].
    + intros H. apply elem_of_cons in H as [->|H].
      * by exists [], (x :: s).
      * apply IH in H as (a & b & E). simpl in E. subst s.
        exists (rev cur ++ x :: a), b. by rewrite <- !app_assoc.
    + intros H. apply IH in H as (a & b & E). exists a, b.
      rewrite <- E. simpl. by rewrite <- app_assoc.
Qed.

Lemma split_aux_nonempty sep s : forall k cur, Str.split_aux sep s k cur <> [].
Proof.
  induction s as [|x s IH]; intros k cur; cbn [Str.split_aux]; [done|].
  destruct k; [|apply IH]. destruct (Str.startswith sep (x :: s)); [done|apply IH].
Qed.

Lemma join_split_aux c s : forall cur,
  Str.join [c] (Str.split_aux [c] s 0 cur) = rev cur ++ s.
Proof.
  induction s as [|x s IH]; intros cur; cbn [Str.split_aux].
  - simpl. by rewrite app_nil_r.
  - cbn [Str.startswith length Nat.sub].
    destruct (N.eqb_spec c x) as [->|Hne]; cbn [andb].
    + assert (forall p ps, ps <> [] ->
                Str.join [x] (p :: ps) = p ++ [x] ++ Str.join [x] ps) as J
        by (intros p [|q ps]; done).
      rewrite J; [by rewrite IH|]. apply split_aux_nonempty.
    + rewrite IH. simpl. by rewrite <- app_assoc.
Qed.

Lemma join_split c s : Str.join [c] (Str.split s [c]) = s.
Proof. apply (join_split_aux c s []). Qed.

Lemma fix_line_no_pattern line :
  Str.contains QUOTE_COLON_SPACE_QUOTE line = false -> fix_line line = line.
Proof.
  intros H. unfold fix_line, Str.split1. unfold Str.contains in H.
  destruct (Str.find_at QUOTE_COLON_SPACE_QUOTE line 0); [done|].
  by destruct (_ || _).
Qed.

Lemma aggressive_fixes_id json_str :
  Str.contains QUOTE_COLON_SPACE_QUOTE json_str = false ->
  aggressive_fixes json_str = json_str.
Proof.
  intros H. unfold aggressive_fixes, fix_quotes. rewrite !replace_same.
  rewrite <- (join_split 10%N json_str) at 2. f_equal.
  rewrite <- (map_id (Str.split json_str [10%N])) at 2.
  apply map_ext_in. intros line Hl. apply fix_line_no_pattern.
  apply list_elem_of_In, split_aux_infix in Hl as (a & b & E).
  simpl in E. rewrite E in H. by apply contains_infix in H.
Qed.



Lemma startswith_app_long p : forall a b,
  length p <= length a -> Str.startswith p (a ++ b) = Str.startswith p a.
Proof.
  induction p as [|x p IH]; intros a b H; [by destruct a|].
  destruct a as [|y a]; simpl in H; [lia|]. simpl. rewrite IH; [done|lia].
Qed.

Lemma find_at_after_key key rest :
  Str.contains QUOTE_COLON_SPACE_QUOTE (key ++ [34; 58; 32]%N) = false ->
  forall i,
    Str.find_at QUOTE_COLON_SPACE_QUOTE
      (key ++ QUOTE_COLON_SPACE_QUOTE ++ rest) i = Some (i + length key).
Proof.
  induction key as [|x key IH]; intros H i.
  - simpl. f_equal. lia.
  - rewrite <- app_comm_cons in H. apply contains_cons in H as [H1 H2].
    rewrite <- app_comm_cons. cbn [Str.find_at].
    change (x :: key ++ QUOTE_COLON_SPACE_QUOTE ++ rest)
      with ((x :: key) ++ [34; 58; 32]%N ++ 34%N :: rest).
    rewrite app_assoc, startswith_app_long
      by (rewrite length_app; simpl; lia).
    rewrite <- app_comm_cons, H1.
    change (key ++ [34; 58; 32]%N ++ 34%N :: rest)
      with (key ++ QUOTE_COLON_SPACE_QUOTE ++ rest).
    rewrite (IH H2). f_equal. simpl. lia.
Qed.

Lemma rfind_at_quote_comma value : forall i,
  Str.rfind_at QUOTE_COMMA (value ++ QUOTE_COMMA) i = Some (i + length value).
Proof.
  induction value as [|x value IH]; intros i.
  - simpl. f_equal. lia.
  - rewrite <- app_comm_cons. cbn [Str.rfind_at]. rewrite IH. f_equal.
    simpl. lia.
Qed.

Lemma slice_to_nat {A} (s : list A) k :
  k <= length s -> Str.slice_to s (Z.of_nat k) = firstn k s.
Proof.
  intros H. unfold Str.slice_to, Str.adjust_index.
  replace (Z.of_nat k <? 0)%Z with false by (symmetry; apply Z.ltb_ge; lia).
  by rewrite Z.min_l, Nat2Z.id by lia.
Qed.

(** X12. What the second fix does to a line made of a key part, the
    key-value separator, a value and a closing quotation mark with a comma:
    every quotation mark of the value gets a backslash, also one that had
    one already; the rest of the line is kept. *)
Theorem fix_line_escapes_value key value :
  Str.contains QUOTE_COLON_SPACE_QUOTE (key ++ [34; 58; 32]%N) = false ->
  fix_line (key ++ QUOTE_COLON_SPACE_QUOTE ++ value ++ QUOTE_COMMA)
  = key ++ QUOTE_COLON_SPACE_QUOTE
      ++ Str.replace 34%N [92; 34]%N value ++ QUOTE_COMMA.
Proof.
  intros H. unfold fix_line.
  rewrite contains_occurrence. cbn [orb]. unfold Str.split1.
  rewrite (find_at_after_key _ _ H 0). cbn [Nat.add].
  rewrite take_app_length.
  change (length QUOTE_COLON_SPACE_QUOTE) with 4.
  replace (key ++ QUOTE_COLON_SPACE_QUOTE ++ value ++ QUOTE_COMMA)
    with ((key ++ QUOTE_COLON_SPACE_QUOTE) ++ value ++ QUOTE_COMMA)
    by (by rewrite <- app_assoc).
  rewrite drop_app_length' by (rewrite length_app; simpl; lia).
  pose proof (contains_occurrence QUOTE_COMMA value []) as Hq.
  rewrite app_nil_r in Hq. rewrite Hq. cbn [orb].
  unfold Str.rfind. rewrite rfind_at_quote_comma. cbn [Nat.add].
  replace (Z.of_nat (length value) =? -1)%Z with false
    by (symmetry; apply Z.eqb_neq; lia).
  destruct value as [|c value].
  - simpl. by rewrite <- app_assoc.
  - replace (Z.of_nat (length (c :: value)) >? 0)%Z with true
      by (symmetry; apply Z.gtb_lt; simpl; lia).
    rewrite slice_to_nat, slice_from_nat by (rewrite length_app; lia).
    by rewrite take_app_length, drop_app_length.
Qed.

Lemma fix_line_escapes_value_witness :
  fix_line (jlit "  'title" ++ QUOTE_COLON_SPACE_QUOTE
              ++ jlit "say 'hi' twice" ++ QUOTE_COMMA)
  = jlit "  'title" ++ QUOTE_COLON_SPACE_QUOTE
      ++ Str.replace 34%N [92; 34]%N (jlit "say 'hi' twice") ++ QUOTE_COMMA.
Proof.
  apply (fix_line_escapes_value (jlit "  'title") (jlit "say 'hi' twice")).
  vm_compute. reflexivity.
Defined.
End RepairFacts.

Module BatchFixFacts.
Import Models FixService Spec StrFacts.

Section Service.
Variable World : Type.
Variable client_generate :
  list N -> list N -> list N -> World -> res GenerateReply * World.
Variable model_name : list N.

(** What the loop does to a finding it visits. *)
Local Abbreviation visited lines f :=
  (match on_a_line f lines with
   | Some _ => set_fix_code f None
   | None => f
   end) (only parsing).

Lemma on_a_line_set_fix_code f fix_ lines :
  on_a_line (set_fix_code f fix_) lines = on_a_line f lines.
Proof. reflexivity. Qed.

Lemma visited_idem lines f : visited lines (visited lines f) = visited lines f.
Proof.
  destruct (on_a_line f lines) eqn:E; [|by rewrite E].
  by rewrite on_a_line_set_fix_code, E.
Qed.

Lemma fix_each_store language_ lines findings_ : forall w h a f,
  h !! a = Some f ->
  (fix_each World client_generate model_name language_ lines findings_ w h).2
    !! a
  = Some (if decide (a ∈ findings_) then visited lines f else f).
Proof.
  induction findings_ as [|b rest IH]; intros w h a f Ha.
  { cbn [fix_each snd]. rewrite Ha. case_decide as Hin; [|done].
    by apply elem_of_nil in Hin. }
  cbn [fix_each].
  assert (forall f', a <> b ->
            (if decide (a ∈ rest) then visited lines f' else f')
            = (if decide (a ∈ b :: rest) then visited lines f' else f'))
    as Hother.
  { intros f' Hne. destruct (decide (a ∈ rest)) as [Hin|Hin],
      (decide (a ∈ b :: rest)) as [Hin'|Hin']; try done.
    - destruct Hin'. by apply list_elem_of_further.
    - apply elem_of_cons in Hin' as [?|?]; done. }
  assert (forall w',
    (h !! b = None \/ exists fb, h !! b = Some fb /\ on_a_line fb lines = None) ->
    (fix_each World client_generate model_name language_ lines rest w' h).2
      !! a
    = Some (if decide (a ∈ b :: rest) then visited lines f else f)) as Skip.
  { intros w' Hb. rewrite (IH _ _ _ _ Ha). f_equal.
    destruct (decide (a = b)) as [->|Hne]; [|by apply Hother].
    destruct Hb as [Hb|(fb & Hb & Hl)]; [congruence|].
    rewrite Ha in Hb. injection Hb as ->. rewrite Hl.
    by repeat case_decide. }
  destruct (h !! b) as [fb|] eqn:Hb; [|apply Skip; by left].
  destruct (on_a_line fb lines) as [n|] eqn:Hl; [|apply Skip; right; eauto].
  clear Skip.
  match goal with
  | |- context [generate_fix ?W ?c ?m ?l ?s ?f ?w] =>
      pose proof (FixFacts.generate_fix_none W c m l s f w) as E;
      destruct (generate_fix W c m l s f w) as [r w']
  end.
  simpl in E. subst r.
  destruct (decide (a = b)) as [->|Hne].
  - rewrite Ha in Hb. injection Hb as ->.
    rewrite (IH _ _ b (set_fix_code fb None)) by apply lookup_insert_eq.
    rewrite on_a_line_set_fix_code, Hl. f_equal.
    destruct (decide (b ∈ b :: rest)) as [_|Hn];
      [|destruct Hn; apply list_elem_of_here].
    by destruct (decide (b ∈ rest)).
  - rewrite (IH _ _ a f) by (by rewrite lookup_insert_ne).
    f_equal. by apply Hother.
Qed.

(** X13. What batch fix generation leaves in the store: a finding that is
    in the list and whose line number lies in the file has its [fix_code]
    set to [None], also when it had one; every other finding is untouched. *)
Theorem batch_fix_erases_fix_code code_content language_ findings_ w h a f :
  h !! a = Some f ->
  (generate_fixes_for_findings World client_generate model_name
     code_content language_ findings_ w h).2 !! a
  = Some (if decide (a ∈ findings_)
          then match on_a_line f (Str.split code_content [10%N]) with
               | Some _ => set_fix_code f None
               | None => f
               end
          else f).
Proof.
  intros Ha. unfold generate_fixes_for_findings.
  pose proof (fix_each_store language_ (Str.split code_content [10%N])
                findings_ w h a f Ha) as H.
  pose proof (FixFacts.fix_each_frame World client_generate model_name
                language_ (Str.split code_content [10%N]) findings_ w h h
                (FixFacts.frame_refl h)) as F.
  destruct (fix_each _ _ _ _ _ _ _ _) as [[r w'] h'].
  destruct F as [-> _]. exact H.
Qed.

End Service.

Lemma on_a_line_bounds finding lines n :
  on_a_line finding lines = Some n ->
  line_number finding = Some n /\ (1 <= n <= Z.of_nat (length lines))%Z.
Proof.
  unfold on_a_line. destruct (line_number finding) as [m|]; [|done].
  destruct (negb (m =? 0)%Z && (1 <=? m)%Z && (m <=? Z.of_nat (length lines))%Z)
    eqn:E; [|done].
  intros [= ->]. apply andb_prop in E as [E E3]. apply andb_prop in E as [_ E2].
  split; [done|]. lia.
Qed.

Lemma take_min_length {A} (l : list A) k :
  take (Nat.min (length l) k) l = take k l.
Proof.
  destruct (le_lt_dec k (length l)).
  - by rewrite Nat.min_r.
  - rewrite Nat.min_l by lia. by rewrite !take_ge by lia.
Qed.

(** X15. The snippet cut for a finding on line [n] of the file: the line
    before it, the line itself and the two lines after it, as far as they
    exist; the flagged line is always in it. *)
Theorem snippet_window finding (lines : list (list N)) n :
  on_a_line finding lines = Some n ->
  let window :=
    Str.slice lines (Z.max 0 (n - 2)) (Z.min (Z.of_nat (length lines)) (n + 2)) in
  window = (if (n =? 1)%Z then take 3 lines
            else take 4 (drop (Z.to_nat (n - 2)) lines))
  /\ window !! (if (n =? 1)%Z then 0 else 1) = lines !! Z.to_nat (n - 1)
  /\ is_Some (lines !! Z.to_nat (n - 1)).
Proof.
  intros H. apply on_a_line_bounds in H as [_ [H1 H2]]. cbv zeta.
  assert (Str.slice lines (Z.max 0 (n - 2))
            (Z.min (Z.of_nat (length lines)) (n + 2))
          = (if (n =? 1)%Z then take 3 lines
             else take 4 (drop (Z.to_nat (n - 2)) lines))) as ->.
  { replace (Z.max 0 (n - 2)) with (Z.of_nat (Z.to_nat (n - 2))) by lia.
    replace (Z.min (Z.of_nat (length lines)) (n + 2))
      with (Z.of_nat (Nat.min (length lines) (Z.to_nat (n + 2)))) by lia.
    rewrite slice_nat by lia.
    destruct (Z.eqb_spec n 1) as [->|Hn].
    - change (Z.to_nat (1 - 2)) with 0. rewrite drop_0, Nat.sub_0_r.
      apply take_min_length.
    - rewrite <- (take_min_length (drop _ lines) 4), length_drop.
      f_equal. lia. }
  destruct (Z.eqb_spec n 1) as [->|Hn].
  - split; [done|]. rewrite lookup_take_lt by lia. split; [done|].
    apply lookup_lt_is_Some. simpl. lia.
  - split; [done|]. rewrite lookup_take_lt, lookup_drop by lia.
    replace (Z.to_nat (n - 2) + 1) with (Z.to_nat (n - 1)) by lia.
    split; [done|]. apply lookup_lt_is_Some. lia.
Qed.

Lemma snippet_window_witness :
  let finding :=
    mkFinding (Some 3%Z) HIGH (lit "style") (lit "t") (lit "d") (lit "s")
      None None None None None None None None in
  let lines := [lit "a"; lit "b"; lit "c"; lit "d"; lit "e"; lit "f"] in
  let window :=
    Str.slice lines (Z.max 0 (3 - 2)) (Z.min (Z.of_nat (length lines)) (3 + 2)) in
  window = (if (3 =? 1)%Z then take 3 lines
            else take 4 (drop (Z.to_nat (3 - 2)) lines))
  /\ window !! (if (3 =? 1)%Z then 0 else 1) = lines !! Z.to_nat (3 - 1)
  /\ is_Some (lines !! Z.to_nat (3 - 1)).
Proof.
  intros finding lines.
  apply (snippet_window finding lines 3). reflexivity.
Defined.

Lemma batch_fix_erases_fix_code_witness :
  let on_line :=
    mkFinding (Some 1%Z) HIGH (lit "style") (lit "t") (lit "d") (lit "s")
      None (Some (lit "old fix")) None None None None None None in
  let client := fun (_ _ _ : list N) (w : unit) =>
                  (Ret (mkReply (Some (lit "x = 1")) None None), w) in
  let h : gmap nat Finding := <[0 := on_line]> ∅ in
  (generate_fixes_for_findings unit client (lit "mistral")
     (lit "x=1") (lit "python") [0] tt h).2 !! 0
  = Some (set_fix_code on_line None).
Proof.
  intros on_line client h.
  apply (batch_fix_erases_fix_code unit client (lit "mistral")
           (lit "x=1") (lit "python") [0] tt h 0 on_line).
  reflexivity.
Defined.

End BatchFixFacts.

Module ReviewCodeFacts.
Import Models ReviewService ReviewCode Spec ReviewFacts.

Section Service.
Variable World : Type.
Variable client_generate :
  list N -> list N -> list N -> World -> res GenerateReply * World.
Variable model_name : list N.
Variable print_comprehensive_review :
  ReviewResponse -> list N -> World -> res unit * World.

Lemma read_llm_response_error msg fp lang :
  read_llm_response
    (JObj [(lit "response", JStr msg); (lit "error", JBool true)]) fp lang
  = Ret (inl (mkReviewResponse fp lang [] msg 0 None)).
Proof. reflexivity. Qed.

Lemma read_llm_response_reply text p c t fp lang :
  read_llm_response
    (JObj [(lit "response", JStr text); (lit "eval_count", c);
           (lit "prompt_eval_count", p); (lit "total_tokens", t)]) fp lang
  = parse_llm_response text fp lang ≫= fun review =>
    Ret (inr (set_token_usage review
                [(lit "prompt_tokens", p); (lit "completion_tokens", c);
                 (lit "total_tokens", t)])).
Proof. reflexivity. Qed.


End Service.


End ReviewCodeFacts.

Module RouteFacts.
Import Models FixService.

(** X18. The fix endpoint never delivers a fix: whatever the request and
    whatever the gateway answers, it reports success with a null
    [fix_code] and the snippet it was sent. *)
Theorem fix_endpoint_delivers_no_fix (World : Type)
    (client_generate :
       list N -> list N -> list N -> World -> res GenerateReply * World)
    (model_name : list N) (request : ReviewRoutes.FixRequest) (w : World) :
  (ReviewRoutes.generate_fix World client_generate model_name request w).1
  = JObj [(lit "success", JBool true);
          (lit "fix_code", JNull);
          (lit "original", JStr (ReviewRoutes.request_code_snippet request))].
Proof.
  unfold ReviewRoutes.generate_fix.
  change (new_Finding JNull MEDIUM (JStr (lit "auto-fix"))
            (JStr (lit "Auto-fix")) (JStr (ReviewRoutes.request_description request))
            (JStr (ReviewRoutes.request_suggestion request))
            JNull JNull JNull JNull JNull JNull JNull JNull)
    with (Ret (mkFinding None MEDIUM (lit "auto-fix") (lit "Auto-fix")
                 (ReviewRoutes.request_description request)
                 (ReviewRoutes.request_suggestion request)
                 None None None None None None None None)).
  cbv iota beta.
  match goal with
  | |- context [generate_fix ?W ?c ?m ?l ?s ?f ?w] =>
      pose proof (FixFacts.generate_fix_none W c m l s f w) as E;
      destruct (generate_fix W c m l s f w) as [r w']
  end.
  simpl in E. by subst r.
Qed.
End RouteFacts.

Module CliFacts.
Import Models ReviewCode Cli StrFacts RepairFacts.

Lemma lstrip_all_space s :
  Forall (fun c => Str.isspace c = true) s -> Str.lstrip s = [].
Proof. induction 1 as [|c s Hc _ IH]; simpl; [done|]. by rewrite Hc. Qed.

Lemma lstrip_head s :
  Str.lstrip s = [] \/ exists c t, Str.lstrip s = c :: t /\ Str.isspace c = false.
Proof.
  induction s as [|c s IH]; simpl; [by left|].
  destruct (Str.isspace c) eqn:E; [done|]. right. eauto.
Qed.

Lemma lstrip_nonspace c t : Str.isspace c = false -> Str.lstrip (c :: t) = c :: t.
Proof. intros H. simpl. by rewrite H. Qed.

Lemma lstrip_idem s : Str.lstrip (Str.lstrip s) = Str.lstrip s.
Proof.
  destruct (lstrip_head s) as [->|(c & t & -> & H)]; [done|].
  by apply lstrip_nonspace.
Qed.

Lemma rstrip_idem s : Str.rstrip (Str.rstrip s) = Str.rstrip s.
Proof. unfold Str.rstrip. by rewrite rev_involutive, lstrip_idem. Qed.

Lemma strip_idem s : Str.strip (Str.strip s) = Str.strip s.
Proof.
  unfold Str.strip.
  destruct (lstrip_head s) as [->|(c & t & -> & H)]; [done|].
  rewrite (rstrip_cons_nonspace _ _ H), (lstrip_nonspace _ _ H).
  by rewrite <- (rstrip_cons_nonspace _ _ H), rstrip_idem.
Qed.

Lemma not_elem_of_rev (c : N) cur : c ∉ cur -> c ∉ rev cur.
Proof. by rewrite !list_elem_of_In, <- in_rev. Qed.

Lemma split_aux_no_sep c s : forall cur l,
  c ∉ cur -> l ∈ Str.split_aux [c] s 0 cur -> c ∉ l.
Proof.
  induction s as [|x s IH]; intros cur l Hc; cbn [Str.split_aux].
  - intros H. apply list_elem_of_singleton in H as ->.
    by apply not_elem_of_rev.
  - cbn [Str.startswith length Nat.sub].
    destruct (N.eqb_spec c x) as [->|Hne]; cbn [andb].
    + intros H. apply elem_of_cons in H as [->|H].
      * by apply not_elem_of_rev.
      * apply (IH [] l); [apply not_elem_of_nil | done].
    + apply IH. by apply not_elem_of_cons.
Qed.

Lemma strip_subset s c : c ∈ Str.strip s -> c ∈ s.
Proof.
  intros H. destruct (strip_split s) as (w1 & w2 & E & _). rewrite E.
  apply elem_of_app. right. apply elem_of_app. by left.
Qed.

(** X19. Every guideline read from a guidelines file is one line of it
    without the white space around it, and none is empty. *)
Theorem load_guidelines_entries text :
  Forall (fun g => g <> [] /\ Str.strip g = g /\ 10%N ∉ g)
    (load_guidelines text).
Proof.
  unfold load_guidelines. apply List.Forall_forall. intros g Hg.
  apply in_map_iff in Hg as (line & <- & Hl).
  apply filter_In in Hl as [Hl Hne].
  split; [by destruct (Str.strip line)|]. split; [apply strip_idem|].
  intros H. apply strip_subset in H. revert H.
  apply (split_aux_no_sep 10%N (Str.strip text) [] line);
    [apply not_elem_of_nil | by apply list_elem_of_In].
Qed.

Lemma strip_all_space s :
  Forall (fun c => Str.isspace c = true) s -> Str.strip s = [].
Proof. intros H. unfold Str.strip. by rewrite (lstrip_all_space _ H). Qed.

(** X20. A guidelines file with nothing but white space gives no
    guideline, and the review then uses the guidelines of the language, as
    it does with no guidelines file at all. *)
Theorem blank_guidelines_file text language_ :
  Forall (fun c => Str.isspace c = true) text ->
  load_guidelines text = []
  /\ get_system_prompt language_ (Some (load_guidelines text))
     = get_system_prompt language_ None.
Proof.
  intros H. assert (load_guidelines text = []) as E.
  { unfold load_guidelines. by rewrite (strip_all_space _ H). }
  by rewrite E.
Qed.

Lemma blank_guidelines_file_witness :
  load_guidelines [32; 10; 9; 10]%N = []
  /\ get_system_prompt (lit "python") (Some (load_guidelines [32; 10; 9; 10]%N))
     = get_system_prompt (lit "python") None.
Proof.
  apply (blank_guidelines_file [32; 10; 9; 10]%N (lit "python")).
  repeat constructor.
Defined.

(** The findings of one severity, in their order. *)
Local Abbreviation of_severity l fs :=
  (List.filter
     (fun f => Str.eqb (severity_value (severity f)) (severity_value l)) fs)
  (only parsing).

Lemma severity_value_eqb a b :
  Str.eqb (severity_value a) (severity_value b) = true <-> a = b.
Proof. split; [by destruct a, b | intros ->; by destruct b]. Qed.

Lemma severity_value_inj a b : severity_value a = severity_value b -> a = b.
Proof. by destruct a, b. Qed.

Lemma group_findings_lookup fs : forall m l,
  group_findings fs m !! severity_value l
  = match of_severity l fs with
    | [] => m !! severity_value l
    | g => Some (default [] (m !! severity_value l) ++ g)
    end.
Proof.
  induction fs as [|f fs IH]; intros m l; [done|].
  cbn [group_findings List.filter]. rewrite IH.
  set (sev := severity_value (severity f)).
  assert (default []
            (match m !! sev with
             | Some _ => m
             | None => <[sev := []]> m
             end !! sev) = default [] (m !! sev)) as ->.
  { destruct (m !! sev) eqn:E; [by rewrite E|]. by rewrite lookup_insert_eq. }
  destruct (Str.eqb sev (severity_value l)) eqn:E.
  - apply severity_value_eqb in E as <-. fold sev.
    rewrite lookup_insert_eq. cbn [default from_option id].
    destruct (List.filter _ fs); [done|]. by rewrite <- app_assoc.
  - assert (sev <> severity_value l) as Hne.
    { intros Heq. rewrite Heq in E. unfold Str.eqb in E.
      by apply bool_decide_eq_false in E. }
    rewrite lookup_insert_ne by done.
    destruct (m !! sev) eqn:Hm; [done|]. by rewrite lookup_insert_ne.
Qed.

Lemma of_severity_cons l f fs :
  of_severity l (f :: fs)
  = if Str.eqb (severity_value (severity f)) (severity_value l)
    then f :: of_severity l fs else of_severity l fs.
Proof. reflexivity. Qed.

Lemma by_severity_permutation fs :
  of_severity CRITICAL fs ++ of_severity HIGH fs ++ of_severity MEDIUM fs
    ++ of_severity LOW fs ++ of_severity INFO fs ≡ₚ fs.
Proof.
  induction fs as [|f fs IH]; [done|].
  rewrite !of_severity_cons.
  destruct (severity f); cbv beta iota;
    repeat match goal with
    | |- context [Str.eqb (severity_value ?a) (severity_value ?b)] =>
        let v := eval vm_compute in (Str.eqb (severity_value a) (severity_value b)) in
        change (Str.eqb (severity_value a) (severity_value b)) with v
    end; cbv iota.
  all: rewrite <- ?app_comm_cons, <- ?Permutation_middle; by constructor.
Qed.

(** X21. The report groups the findings by severity: the groups come from
    the most to the least severe, each holds the findings of its severity
    in the order of the review, a severity with no finding has no group,
    and every finding is shown once. *)
Theorem displayed_groups_by_severity result :
  displayed_groups result
  = flat_map
      (fun l =>
         match List.filter
                 (fun f => Str.eqb (severity_value (severity f))
                             (severity_value l))
                 (findings result) with
         | [] => []
         | g => [(severity_value l, g)]
         end)
      severity_levels
  /\ concat (List.map snd (displayed_groups result)) ≡ₚ findings result.
Proof.
  assert (displayed_groups result
          = flat_map
              (fun l =>
                 match of_severity l (findings result) with
                 | [] => []
                 | g => [(severity_value l, g)]
                 end)
              severity_levels) as E.
  { unfold displayed_groups. destruct (findings result) as [|f fs] eqn:Hf;
      [done|].
    change [lit "critical"; lit "high"; lit "medium"; lit "low"; lit "info"]
      with (List.map severity_value severity_levels).
    unfold severity_levels. cbn [List.map flat_map].
    rewrite !group_findings_lookup, !lookup_empty. cbn [default from_option].
    by repeat destruct (List.filter _ (f :: fs)). }
  split; [exact E|]. rewrite E.
  etrans; [|apply by_severity_permutation].
  unfold severity_levels. cbn [flat_map].
  repeat match goal with
  | |- context [match ?g with [] => [] | _ :: _ => _ end] => destruct g
  end; cbn [List.map concat snd app]; by rewrite ?app_nil_r.
Qed.
End CliFacts.
